(** * Gallery controller of the AI image analyser (src/pages/Index.tsx)

    A shallow embedding of the four handlers of the [Index] component:
    [fetchImages], [handleFileSelect], [handleUpload] and [handleDelete],
    which the specification calls listImages, selectFile, uploadStaged and
    deleteImage.

    The handlers are written once, as programs over the commands the
    component really issues (state setters, toasts, console output and
    [fetch]); an interpreter runs such a program against an answer of the
    backend.  JSON payloads are taken at the shapes of the REST contract
    (the [UploadedImage] interface): a record, an array of records, an
    object with an optional [message].  Besides them the model has the
    body that [json()] rejects and the listing that is not an array, on
    which [data.map] throws; bodies of other shapes are outside it. *)

From Stdlib Require Import String ZArith List Bool.
From stdpp Require Import base tactics option list strings.

Local Open Scope string_scope.
Local Open Scope Z_scope.

(* ===================================================================== *)
(** ** Data model *)
(* ===================================================================== *)

(** [status?: "analyzing" | "completed"] *)
Inductive Status : Type :=
| analyzing
| completed.

(** [interface UploadedImage]; an optional field is an [option]. *)
Record UploadedImage : Type := mkUploadedImage {
  id : string;
  fileName : string;
  originalName : option string;
  mimeType : option string;
  size : option Z;
  uploadedAt : string;
  description : string;
  status : option Status
}.

(** The part of the DOM [File] object the component reads. *)
Module File.
Record t : Type := mk {
  name : string;
  type : string;
  size : Z
}.
End File.
Abbreviation File := File.t.

(** [React.ChangeEvent<HTMLInputElement>]: [event.target.files] is a
    [FileList] or [null]. *)
Record ChangeEvent : Type := mkChangeEvent {
  files : option (list File)
}.

(** A value caught by [catch (error)]: an [Error] object with its
    [message], or anything else. *)
Inductive Thrown : Type :=
| JsError (message : string)
| NotAnError.

Global Instance Status_eq_dec : EqDecision Status.
Proof. solve_decision. Defined.

Global Instance UploadedImage_eq_dec : EqDecision UploadedImage.
Proof. solve_decision. Defined.

Global Instance File_eq_dec : EqDecision File.
Proof. solve_decision. Defined.

Global Instance Thrown_eq_dec : EqDecision Thrown.
Proof. solve_decision. Defined.

(* ===================================================================== *)
(** ** The backend, as the component sees it *)
(* ===================================================================== *)

(** [await response.json()] either rejects or resolves to a payload. *)
Inductive JsonResult (P : Type) : Type :=
| json_rejects (e : Thrown)
| json_resolves (v : P).
Arguments json_rejects {P} e.
Arguments json_resolves {P} v.

(** A response, by [response.ok]; the payload differs with it. *)
Inductive Response (S F : Type) : Type :=
| response_ok (json : JsonResult S)
| response_not_ok (json : JsonResult F).
Arguments response_ok {S F} json.
Arguments response_not_ok {S F} json.

Definition ok {S F} (response : Response S F) : bool :=
  match response with
  | response_ok _ => true
  | response_not_ok _ => false
  end.

(** [await fetch(...)] either rejects (network failure) or resolves. *)
Inductive FetchResult (S F : Type) : Type :=
| fetch_rejects (e : Thrown)
| fetch_resolves (response : Response S F).
Arguments fetch_rejects {S F} e.
Arguments fetch_resolves {S F} response.

(** The JSON of [GET /api/images]: [data.map] exists only on an array. *)
Inductive ImagesJson : Type :=
| json_array (data : list UploadedImage)
| json_not_array.

(** The JSON of a failed upload: an object with an optional [message]. *)
Record ErrorData : Type := mkErrorData {
  message : option string
}.

(** The three requests of the component, indexed by the payload of a
    success and of a non-success response. *)
Inductive Request : Type -> Type -> Type :=
| GetImages : Request ImagesJson unit
| PostUpload (image : File) : Request UploadedImage ErrorData
| DeleteImage (image_id : string) : Request unit unit.

(** What goes on the wire. *)
Record RequestLine : Type := mkRequestLine {
  method : string;
  url : string;
  formData : list (string * File)
}.

Definition request_line {S F} (req : Request S F) : RequestLine :=
  match req with
  | GetImages =>
      mkRequestLine "GET" "http://localhost:5050/api/images" []
  | PostUpload image =>
      mkRequestLine "POST" "http://localhost:5050/api/upload"
        [("image", image)]
  | DeleteImage image_id =>
      mkRequestLine "DELETE"
        ("http://localhost:5050/api/image/" ++ image_id) []
  end.

(* ===================================================================== *)
(** ** Handler programs *)
(* ===================================================================== *)

(** The effects of a handler other than [fetch]. *)
Inductive Command : Type :=
| setImages (f : list UploadedImage -> list UploadedImage)
| setIsUploading (b : bool)
| setSelectedFile (f : option File)
| resetFileInput
| toast_error (msg : string)
| toast_success (msg : string)
| console_error (label : string) (e : Thrown).

Inductive Prog (A : Type) : Type :=
| Ret (a : A)
| Throw (e : Thrown)
| Do (c : Command) (k : Prog A)
| Fetch {S F : Type} (req : Request S F) (k : FetchResult S F -> Prog A).
Arguments Ret {A} a.
Arguments Throw {A} e.
Arguments Do {A} c k.
Arguments Fetch {A S F} req k.

Fixpoint bind {A B} (p : Prog A) (f : A -> Prog B) : Prog B :=
  match p with
  | Ret a => f a
  | Throw e => Throw e
  | Do c k => Do c (bind k f)
  | Fetch req k => Fetch req (fun r => bind (k r) f)
  end.

(** [try { p } catch (error) { h error }] *)
Fixpoint try_catch {A} (p : Prog A) (h : Thrown -> Prog A) : Prog A :=
  match p with
  | Ret a => Ret a
  | Throw e => h e
  | Do c k => Do c (try_catch k h)
  | Fetch req k => Fetch req (fun r => try_catch (k r) h)
  end.

(** [try { p } finally { fin }] *)
Fixpoint try_finally {A} (p : Prog A) (fin : Prog unit) : Prog A :=
  match p with
  | Ret a => bind fin (fun _ => Ret a)
  | Throw e => bind fin (fun _ => Throw e)
  | Do c k => Do c (try_finally k fin)
  | Fetch req k => Fetch req (fun r => try_finally (k r) fin)
  end.

Declare Scope prog_scope.
Delimit Scope prog_scope with prog.
Notation "x <- p ;; q" := (bind p (fun x => q))
  (at level 100, p at next level, right associativity) : prog_scope.
Notation "c ;; q" := (Do c q)
  (at level 100, right associativity) : prog_scope.
Local Open Scope prog_scope.

Definition fetch {S F} (req : Request S F) : Prog (Response S F) :=
  Fetch req (fun r =>
    match r with
    | fetch_rejects e => Throw e
    | fetch_resolves response => Ret response
    end).

Definition await_json {P} (j : JsonResult P) : Prog P :=
  match j with
  | json_rejects e => Throw e
  | json_resolves v => Ret v
  end.

(** [{ ...img, status: "completed" }] *)
Definition with_status_completed (img : UploadedImage) : UploadedImage :=
  {| id := id img;
     fileName := fileName img;
     originalName := originalName img;
     mimeType := mimeType img;
     size := size img;
     uploadedAt := uploadedAt img;
     description := description img;
     status := Some completed |}.

(** [data.map(...)]: a [TypeError] when [data] is not an array. *)
Definition data_map (data : ImagesJson) (f : UploadedImage -> UploadedImage)
  : Prog (list UploadedImage) :=
  match data with
  | json_array l => Ret (f <$> l)
  | json_not_array => Throw (JsError "data.map is not a function")
  end.

(** [fetchImages] (listImages) *)
Definition fetchImages : Prog unit :=
  try_catch
    (response <- fetch GetImages ;;
     match response with
     | response_ok json =>
         data <- await_json json ;;
         tagged <- data_map data with_status_completed ;;
         setImages (fun _ => tagged) ;;
         Ret tt
     | response_not_ok _ => Ret tt
     end)
    (fun error =>
       console_error "Failed to fetch images:" error ;;
       toast_error "Failed to load images" ;;
       Ret tt).

(** [event.target.files?.[0]] *)
Definition first_file (event : ChangeEvent) : option File :=
  match files event with
  | None => None
  | Some l => head l
  end.

(** [handleFileSelect] (selectFile) *)
Definition handleFileSelect (event : ChangeEvent) : Prog unit :=
  match first_file event with
  | None => Ret tt
  | Some file =>
      if negb (String.prefix "image/" (File.type file)) then
        toast_error "Please select a valid image file (JPEG/PNG)" ;;
        Ret tt
      else if File.size file >? 5 * 1024 * 1024 then
        toast_error "File size must be less than 5MB" ;;
        Ret tt
      else
        setSelectedFile (Some file) ;;
        toast_success "Image selected! Click upload to analyze." ;;
        Ret tt
  end.

(** [errorData.message || "Upload failed"]: the empty string is falsy. *)
Definition message_or (errorData : ErrorData) (fallback : string) : string :=
  match message errorData with
  | None => fallback
  | Some m => if String.eqb m "" then fallback else m
  end.

(** [error instanceof Error ? error.message : "Unknown error"] *)
Definition error_message (error : Thrown) : string :=
  match error with
  | JsError m => m
  | NotAnError => "Unknown error"
  end.

(** [handleUpload] (uploadStaged); [selectedFile] is the state variable
    the closure reads. *)
Definition handleUpload (selectedFile : option File) : Prog unit :=
  match selectedFile with
  | None =>
      toast_error "Please select an image first" ;;
      Ret tt
  | Some file =>
      setIsUploading true ;;
      try_finally
        (try_catch
           (response <- fetch (PostUpload file) ;;
            match response with
            | response_ok json =>
                result <- await_json json ;;
                setImages (fun prev => with_status_completed result :: prev) ;;
                toast_success "Image uploaded and analyzed successfully!" ;;
                setSelectedFile None ;;
                resetFileInput ;;
                Ret tt
            | response_not_ok json =>
                errorData <- await_json json ;;
                Throw (JsError (message_or errorData "Upload failed"))
            end)
           (fun error =>
              console_error "Upload error:" error ;;
              toast_error ("Upload failed: " ++ error_message error) ;;
              Ret tt))
        (setIsUploading false ;; Ret tt)
  end.

(** [handleDelete] (deleteImage) *)
Definition handleDelete (image_id : string) : Prog unit :=
  try_catch
    (response <- fetch (DeleteImage image_id) ;;
     if ok response then
       setImages (fun prev => filter (fun img => id img <> image_id) prev) ;;
       toast_success "Image deleted successfully" ;;
       Ret tt
     else
       toast_error "Failed to delete image" ;;
       Ret tt)
    (fun error =>
       console_error "Delete error:" error ;;
       toast_error "An error occurred while deleting the image" ;;
       Ret tt).

(* ===================================================================== *)
(** ** Running a handler *)
(* ===================================================================== *)

(** The [useState] variables of the component and the value of the file
    input behind [fileInputRef] ([None] when [fileInputRef.current] is
    [null]). *)
Record State : Type := mkState {
  images : list UploadedImage;
  isUploading : bool;
  selectedFile : option File;
  fileInput : option string
}.

(** [useState([])], [useState(false)], [useState(null)], [useRef(null)]. *)
Definition initial : State :=
  {| images := []; isUploading := false; selectedFile := None;
     fileInput := None |}.

(** What a run leaves behind for an observer, oldest first. *)
Inductive Notice : Type :=
| toasted_error (msg : string)
| toasted_success (msg : string)
| logged_error (label : string) (e : Thrown)
| requested (line : RequestLine).

Definition Network : Type := forall S F, Request S F -> FetchResult S F.

Definition exec_command (c : Command) (st : State) : State * list Notice :=
  match c with
  | setImages f =>
      ({| images := f (images st); isUploading := isUploading st;
          selectedFile := selectedFile st; fileInput := fileInput st |}, [])
  | setIsUploading b =>
      ({| images := images st; isUploading := b;
          selectedFile := selectedFile st; fileInput := fileInput st |}, [])
  | setSelectedFile f =>
      ({| images := images st; isUploading := isUploading st;
          selectedFile := f; fileInput := fileInput st |}, [])
  | resetFileInput =>
      ({| images := images st; isUploading := isUploading st;
          selectedFile := selectedFile st;
          fileInput := match fileInput st with
                       | Some _ => Some ""
                       | None => None
                       end |}, [])
  | toast_error msg => (st, [toasted_error msg])
  | toast_success msg => (st, [toasted_success msg])
  | console_error label e => (st, [logged_error label e])
  end.

Inductive Outcome (A : Type) : Type :=
| returned (a : A)
| uncaught (e : Thrown).
Arguments returned {A} a.
Arguments uncaught {A} e.

Record Run (A : Type) : Type := mkRun {
  final : State;
  notices : list Notice;
  outcome : Outcome A
}.
Arguments mkRun {A} final notices outcome.
Arguments final {A} r.
Arguments notices {A} r.
Arguments outcome {A} r.

Fixpoint run_from {A} (p : Prog A) (net : Network) (st : State)
    (log : list Notice) : Run A :=
  match p with
  | Ret a => mkRun st log (returned a)
  | Throw e => mkRun st log (uncaught e)
  | Do c k =>
      let '(st', out) := exec_command c st in
      run_from k net st' (log ++ out)
  | Fetch req k =>
      run_from (k (net _ _ req)) net st (log ++ [requested (request_line req)])
  end.

Definition run {A} (p : Prog A) (net : Network) (st : State) : Run A :=
  run_from p net st [].

(** The requests, the toasts and the error toasts of a log. *)
Definition requests (log : list Notice) : list RequestLine :=
  omap (fun n => match n with requested l => Some l | _ => None end) log.

Definition is_toast (n : Notice) : bool :=
  match n with
  | toasted_error _ | toasted_success _ => true
  | _ => false
  end.

Definition is_error_toast (n : Notice) : bool :=
  match n with
  | toasted_error _ => true
  | _ => false
  end.

Definition toasts (log : list Notice) : list Notice :=
  List.filter is_toast log.

Definition error_toasts (log : list Notice) : list Notice :=
  List.filter is_error_toast log.

(** A backend that is down. *)
Definition offline : Network :=
  fun _ _ _ => fetch_rejects (JsError "Failed to fetch").

(** Backends that give one prepared answer to the request of a handler. *)
Definition images_answer (ans : FetchResult ImagesJson unit) : Network :=
  fun S F req =>
    match req in Request S F return FetchResult S F with
    | GetImages => ans
    | _ => fetch_rejects (JsError "Failed to fetch")
    end.

Definition upload_answer (ans : FetchResult UploadedImage ErrorData)
  : Network :=
  fun S F req =>
    match req in Request S F return FetchResult S F with
    | PostUpload _ => ans
    | _ => fetch_rejects (JsError "Failed to fetch")
    end.

Definition delete_answer (ans : FetchResult unit unit) : Network :=
  fun S F req =>
    match req in Request S F return FetchResult S F with
    | DeleteImage _ => ans
    | _ => fetch_rejects (JsError "Failed to fetch")
    end.

(** The four operations of the controller, each on the current state and
    against the answer of the backend. *)
Definition listImages (ans : FetchResult ImagesJson unit) (st : State)
  : Run unit :=
  run fetchImages (images_answer ans) st.

Definition selectFile (event : ChangeEvent) (st : State) : Run unit :=
  run (handleFileSelect event) offline st.

Definition uploadStaged (ans : FetchResult UploadedImage ErrorData)
    (st : State) : Run unit :=
  run (handleUpload (selectedFile st)) (upload_answer ans) st.

Definition deleteImage (image_id : string) (ans : FetchResult unit unit)
    (st : State) : Run unit :=
  run (handleDelete image_id) (delete_answer ans) st.

(** A handler call of a session, with the backend's answer to it. *)
Inductive Call : Type :=
| call_listImages (ans : FetchResult ImagesJson unit)
| call_selectFile (event : ChangeEvent)
| call_uploadStaged (ans : FetchResult UploadedImage ErrorData)
| call_deleteImage (image_id : string) (ans : FetchResult unit unit).

Definition call (c : Call) (st : State) : Run unit :=
  match c with
  | call_listImages ans => listImages ans st
  | call_selectFile event => selectFile event st
  | call_uploadStaged ans => uploadStaged ans st
  | call_deleteImage image_id ans => deleteImage image_id ans st
  end.

(** A session: calls handled one after the other, oldest first. *)
Definition session (calls : list Call) (st : State) : State :=
  fold_left (fun s c => final (call c s)) calls st.

(** An answer of the backend is a failure when [fetch] rejects or the
    response is not [ok]. *)
Definition failed {S F} (ans : FetchResult S F) : bool :=
  match ans with
  | fetch_rejects _ => true
  | fetch_resolves response => negb (ok response)
  end.

(** A success answer carrying a readable JSON payload. *)
Abbreviation success payload :=
  (fetch_resolves (response_ok (json_resolves payload))).

(** The identifiers of a collection, in its order. *)
Definition ids (l : list UploadedImage) : list string := id <$> l.

(** How often a record occurs in a collection. *)
Definition occurrences (img : UploadedImage) (l : list UploadedImage) : nat :=
  count_occ UploadedImage_eq_dec l img.

(** A record carries the tag the client gives it. *)
Definition is_completed (img : UploadedImage) : Prop :=
  status img = Some completed.

(** *** Ghost history of a session

    [mirrored c st hist] is the list of the records the client has been
    given since the last listing, newest first, after call [c] on state
    [st]: a listing starts it afresh with the listing in the server's
    order, an upload that went through puts its record in front. *)
Definition mirrored (c : Call) (st : State) (hist : list UploadedImage)
  : list UploadedImage :=
  match c with
  | call_listImages
      (fetch_resolves (response_ok (json_resolves (json_array data)))) =>
      with_status_completed <$> data
  | call_uploadStaged (fetch_resolves (response_ok (json_resolves result))) =>
      match selectedFile st with
      | Some _ => with_status_completed result :: hist
      | None => hist
      end
  | _ => hist
  end.

Fixpoint insertion_order (calls : list Call) (st : State)
    (hist : list UploadedImage) : list UploadedImage :=
  match calls with
  | [] => hist
  | c :: rest => insertion_order rest (final (call c st)) (mirrored c st hist)
  end.

(** *** A backend that assigns identifiers properly

    The answer to call [c] on state [st] respects the identifiers: a
    listing has no identifier twice, and the record created by an upload
    has an identifier that no record of the collection has. *)
Definition fresh_answer (c : Call) (st : State) : Prop :=
  match c with
  | call_listImages
      (fetch_resolves (response_ok (json_resolves (json_array data)))) =>
      NoDup (ids data)
  | call_uploadStaged (fetch_resolves (response_ok (json_resolves result))) =>
      is_Some (selectedFile st) -> id result ∉ ids (images st)
  | _ => True
  end.

Fixpoint fresh_backend (calls : list Call) (st : State) : Prop :=
  match calls with
  | [] => True
  | c :: rest => fresh_answer c st /\ fresh_backend rest (final (call c st))
  end.

(** *** Sample data for the concrete runs below *)

Definition cat : UploadedImage :=
  {| id := "x"; fileName := "1704067200-cat.png";
     originalName := Some "cat.png"; mimeType := Some "image/png";
     size := Some 2048; uploadedAt := "2024-01-01T00:00:00Z";
     description := "a cat"; status := None |}.

Definition dog : UploadedImage :=
  {| id := "y"; fileName := "1704153600-dog.jpg";
     originalName := None; mimeType := None;
     size := None; uploadedAt := "2024-01-02T00:00:00Z";
     description := "a dog"; status := Some analyzing |}.

Definition photo : File :=
  {| File.name := "cat.png"; File.type := "image/png"; File.size := 2048 |}.

Definition notes : File :=
  {| File.name := "notes.txt"; File.type := "text/plain"; File.size := 12 |}.

Definition largest : File :=
  {| File.name := "max.png"; File.type := "image/png";
     File.size := 5 * 1024 * 1024 |}.

Definition too_large : File :=
  {| File.name := "huge.png"; File.type := "image/png";
     File.size := 5 * 1024 * 1024 + 1 |}.

(** The change event of the file input after the user chose [file]. *)
Definition choose (file : File) : ChangeEvent :=
  {| files := Some [file] |}.

(** A short session: a listing, a selection, an upload, a deletion. *)
Definition sample_session : list Call :=
  [call_listImages (success (json_array [cat]));
   call_selectFile (choose photo);
   call_uploadStaged (success dog);
   call_deleteImage "x" (success tt)].

(** A non-success upload response whose JSON body has the field
    [message] set to the empty string. *)
Definition empty_message : FetchResult UploadedImage ErrorData :=
  fetch_resolves (response_not_ok (json_resolves {| message := Some "" |})).

(** A gallery with [dog] twice around [cat]. *)
Definition dog_cat_dog : State :=
  {| images := [with_status_completed dog; with_status_completed cat;
                with_status_completed dog];
     isUploading := false; selectedFile := None; fileInput := None |}.

(** The calls that stage [photo] with [cat] in the gallery, and a listing
    of a record that the backend sent with status "analyzing". *)
Definition staging_calls : list Call :=
  [call_selectFile (choose photo);
   call_uploadStaged (success cat);
   call_selectFile (choose photo)].

Definition listing_calls : list Call :=
  [call_listImages (success (json_array [dog; cat]))].

(** A state with [photo] staged and [cat] in the gallery. *)
Definition staged_with_cat : State :=
  session [call_selectFile (choose photo);
           call_uploadStaged (success cat);
           call_selectFile (choose photo)] initial.

(* ===================================================================== *)
(** ** The state while a request is in flight *)
(* ===================================================================== *)

(** The state the component is rendered with while it awaits its first
    [fetch]: the commands before the request have been applied; [None] when
    the handler ends without a request. *)
Fixpoint state_at_fetch {A} (p : Prog A) (st : State) : option State :=
  match p with
  | Ret _ => None
  | Throw _ => None
  | Do c k => state_at_fetch k (fst (exec_command c st))
  | Fetch _ _ => Some st
  end.

(** [useEffect(() => { fetchImages(); }, [])]: the listing on mount. *)
Definition mount (ans : FetchResult ImagesJson unit) : Run unit :=
  listImages ans initial.

(* ===================================================================== *)
(** ** What the component renders *)
(* ===================================================================== *)

(** [Math.round(n / d)] for an integer [n] and [d > 0]: the quotient
    rounded to the nearest integer, a half going up.  With [d = 1024] the
    division is exact in floating point for every byte count. *)
Definition Math_round_div (n d : Z) : Z := (2 * n + d) / (2 * d).

(** [a || b] on strings that may be [undefined]: the empty string and
    [undefined] are falsy. *)
Definition or_else (a b : option string) : option string :=
  match a with
  | Some s => if String.eqb s "" then b else Some s
  | None => b
  end.

(** A value inside a template literal or as an attribute text. *)
Definition to_text (v : option string) : string :=
  match v with
  | Some s => s
  | None => "undefined"
  end.

(** What [{image.size && (<div>Size: ... KB</div>)}] puts on the card:
    nothing for [undefined], the number [0] itself for a size of zero
    (React renders a number), the line otherwise. *)
Inductive SizeLine : Type :=
| size_nothing
| size_bare_number (n : Z)
| size_line (kb : Z).

Definition render_size (sz : option Z) : SizeLine :=
  match sz with
  | None => size_nothing
  | Some n => if n =? 0 then size_bare_number n
              else size_line (Math_round_div n 1024)
  end.

(** The double quote of the JSX text around the description. *)
Definition dquote : string := String (Ascii.ascii_of_nat 34) EmptyString.

(** One card of the results grid: the data-dependent parts of the JSX of
    [images.map((image) => ...)].  The date line is left out: it is
    formatted by the locale of the browser. *)
Record Card : Type := mkCard {
  key : string;
  src : string;
  alt : string;
  badge : string;
  title : option string;
  quoted : string;
  sizeLine : SizeLine;
  onDelete : string
}.

Definition render_card (image : UploadedImage) : Card :=
  {| key := id image;
     src := "http://localhost:5050/api/upload/"
            ++ to_text (or_else (Some (fileName image)) (originalName image));
     alt := to_text (or_else (originalName image) (Some (fileName image)));
     badge := "Completed";
     title := or_else (originalName image) (Some (fileName image));
     quoted := dquote ++ description image ++ dquote;
     sizeLine := render_size (size image);
     onDelete := id image |}.

(** The upload button under the preview. *)
Record UploadButton : Type := mkUploadButton {
  disabled : bool;
  caption : string
}.

(** The results grid with its heading "Analyzed Images (n)". *)
Record Grid : Type := mkGrid {
  heading : nat;
  cards : list Card
}.

Record View : Type := mkView {
  prompt : string;
  uploadButton : option UploadButton;
  grid : option Grid;
  emptyState : bool
}.

(** The data-dependent parts of the JSX the component returns. *)
Definition render (st : State) : View :=
  {| prompt :=
       match selectedFile st with
       | Some file => "Selected: " ++ File.name file
       | None => "Choose an image"
       end;
     uploadButton :=
       match selectedFile st with
       | Some _ =>
           Some {| disabled := isUploading st;
                   caption := if isUploading st
                              then "Uploading & Analyzing..."
                              else "Upload & Analyze" |}
       | None => None
       end;
     grid :=
       if (0 <? length (images st))%nat
       then Some {| heading := length (images st);
                    cards := render_card <$> images st |}
       else None;
     emptyState := (length (images st) =? 0)%nat |}.

(** The cards on the page ([[]] when the grid is not rendered). *)
Definition shown_cards (v : View) : list Card :=
  match grid v with
  | Some g => cards g
  | None => []
  end.

(** The click on the Delete button of the [i]-th card: its [onClick] calls
    [handleDelete(image.id)]; without such a card there is nothing to
    click. *)
Definition click_delete (i : nat) (ans : FetchResult unit unit) (st : State)
  : State :=
  match shown_cards (render st) !! i with
  | Some card => final (deleteImage (onDelete card) ans st)
  | None => st
  end.

(** A file passes the two checks of [handleFileSelect]. *)
Definition acceptable (file : File) : Prop :=
  String.prefix "image/" (File.type file) = true
  /\ File.size file <= 5 * 1024 * 1024.

(** A record whose size is zero bytes, and one of 511 bytes. *)
Definition empty_upload : UploadedImage :=
  {| id := "e"; fileName := "empty.png"; originalName := Some "";
     mimeType := None; size := Some 0;
     uploadedAt := "2024-01-03T00:00:00Z"; description := "nothing";
     status := None |}.

Definition nameless : UploadedImage :=
  {| id := "n"; fileName := ""; originalName := None;
     mimeType := None; size := Some 511;
     uploadedAt := "2024-01-04T00:00:00Z"; description := "unknown";
     status := None |}.

(* ===================================================================== *)
(** ** Equations of the four operations *)
(* ===================================================================== *)

Section Equations.
Variable st : State.

Lemma listImages_success_array data :
  listImages (success (json_array data)) st =
  mkRun {| images := with_status_completed <$> data;
           isUploading := isUploading st;
           selectedFile := selectedFile st;
           fileInput := fileInput st |}
        [requested (request_line GetImages)]
        (returned tt).
Proof. reflexivity. Qed.

Lemma listImages_rejects e :
  listImages (fetch_rejects e) st =
  mkRun st
        [requested (request_line GetImages);
         logged_error "Failed to fetch images:" e;
         toasted_error "Failed to load images"]
        (returned tt).
Proof. reflexivity. Qed.

Lemma listImages_not_ok json :
  listImages (fetch_resolves (response_not_ok json)) st =
  mkRun st [requested (request_line GetImages)] (returned tt).
Proof. reflexivity. Qed.

Lemma listImages_unreadable json :
  (forall data, json <> json_resolves (json_array data)) ->
  final (listImages (fetch_resolves (response_ok json)) st) = st.
Proof.
  intros Hjson; destruct json as [e | [data | ]]; try reflexivity.
  destruct (Hjson data); reflexivity.
Qed.

Lemma uploadStaged_success file result :
  selectedFile st = Some file ->
  uploadStaged (success result) st =
  mkRun {| images := with_status_completed result :: images st;
           isUploading := false;
           selectedFile := None;
           fileInput := match fileInput st with
                        | Some _ => Some ""
                        | None => None
                        end |}
        [requested (request_line (PostUpload file));
         toasted_success "Image uploaded and analyzed successfully!"]
        (returned tt).
Proof. unfold uploadStaged; intros ->; reflexivity. Qed.

Lemma deleteImage_ok image_id json :
  deleteImage image_id (fetch_resolves (response_ok json)) st =
  mkRun {| images := filter (fun img => id img <> image_id) (images st);
           isUploading := isUploading st;
           selectedFile := selectedFile st;
           fileInput := fileInput st |}
        [requested (request_line (DeleteImage image_id));
         toasted_success "Image deleted successfully"]
        (returned tt).
Proof. reflexivity. Qed.

(** Whatever the call and the answer, the collection afterwards is the
    old one, a tagged listing, the old one behind a tagged new record,
    or the old one filtered by an identifier. *)
Lemma call_images (c : Call) :
  images (final (call c st)) = images st
  \/ (exists data,
        c = call_listImages (success (json_array data))
        /\ images (final (call c st)) = with_status_completed <$> data)
  \/ (exists result,
        c = call_uploadStaged (success result)
        /\ is_Some (selectedFile st)
        /\ images (final (call c st))
           = with_status_completed result :: images st)
  \/ (exists image_id,
        images (final (call c st))
        = filter (fun img => id img <> image_id) (images st)).
Proof.
  destruct c as [ans | event | ans | image_id ans].
  - destruct ans as [e | [[e | [data | ]] | json]];
      try (left; reflexivity).
    right; left; exists data; split; reflexivity.
  - left. unfold call, selectFile, handleFileSelect.
    destruct (first_file event) as [file | ]; [ | reflexivity].
    destruct (negb (String.prefix "image/" (File.type file)));
      [reflexivity | ].
    destruct (File.size file >? 5 * 1024 * 1024); reflexivity.
  - unfold call, uploadStaged.
    destruct (selectedFile st) as [file | ] eqn:Hsel;
      [ | left; reflexivity].
    destruct ans as [e | [[e | result] | [e | errorData]]];
      try (left; reflexivity).
    right; right; left; exists result.
    split; [reflexivity | ]. split; [eauto | reflexivity].
  - destruct ans as [e | [json | json]]; try (left; reflexivity).
    right; right; right; exists image_id; reflexivity.
Qed.
End Equations.

(* ===================================================================== *)
(** ** Identifiers and order of the collection *)
(* ===================================================================== *)

Lemma ids_tagged (data : list UploadedImage) :
  ids (with_status_completed <$> data) = ids data.
Proof.
  unfold ids. induction data as [ | img data IH]; [reflexivity | ].
  cbn. f_equal. exact IH.
Qed.

Lemma ids_filter_sublist (P : UploadedImage -> Prop)
    `{!forall img, Decision (P img)} (l : list UploadedImage) :
  ids (filter P l) `sublist_of` ids l.
Proof. unfold ids. apply fmap_sublist, sublist_filter. Qed.

Lemma ids_filter_NoDup (P : UploadedImage -> Prop)
    `{!forall img, Decision (P img)} (l : list UploadedImage) :
  NoDup (ids l) -> NoDup (ids (filter P l)).
Proof. intros H0. eapply sublist_NoDup; [exact H0 | apply ids_filter_sublist]. Qed.

Lemma session_cons (c : Call) (calls : list Call) (st : State) :
  session (c :: calls) st = session calls (final (call c st)).
Proof. reflexivity. Qed.

(** One call keeps the identifiers distinct and the collection inside the
    ghost history, when the backend's answer respects the identifiers. *)
Lemma call_keeps_order (c : Call) (st : State) (hist : list UploadedImage) :
  NoDup (ids (images st)) ->
  images st `sublist_of` hist ->
  fresh_answer c st ->
  NoDup (ids (images (final (call c st))))
  /\ images (final (call c st)) `sublist_of` mirrored c st hist.
Proof.
  intros Hnodup Hsub Hfresh.
  destruct c as [ans | event | ans | image_id ans].
  - destruct ans as [e | [[e | [data | ]] | json]]; try (split; assumption).
    cbn in Hfresh. cbn [call mirrored].
    rewrite (listImages_success_array st data). cbn [final images].
    rewrite ids_tagged. split; [assumption | reflexivity].
  - destruct (call_images st (call_selectFile event))
      as [Heq | [(data & Hc & _) | [(result & Hc & _) | (i & Heq)]]];
      try discriminate Hc.
    + cbn [mirrored]. rewrite Heq. split; assumption.
    + cbn [mirrored]. rewrite Heq. split.
      * apply ids_filter_NoDup; assumption.
      * etrans; [apply sublist_filter | assumption].
  - cbn [call mirrored].
    destruct ans as [e | [[e | result] | [e | errorData]]];
      try (unfold uploadStaged; destruct (selectedFile st);
           split; assumption).
    destruct (selectedFile st) as [file | ] eqn:Hsel.
    + rewrite (uploadStaged_success st file result Hsel).
      cbn [final images]. split.
      * apply NoDup_cons. split; [ | assumption].
        apply Hfresh. eauto.
      * apply sublist_skip. assumption.
    + unfold uploadStaged. rewrite Hsel. split; assumption.
  - cbn [call mirrored].
    destruct ans as [e | [json | json]]; try (split; assumption).
    rewrite deleteImage_ok. cbn [final images]. split.
    + apply ids_filter_NoDup; assumption.
    + etrans; [apply sublist_filter | assumption].
Qed.

Lemma session_keeps_order (calls : list Call) :
  forall (st : State) (hist : list UploadedImage),
    NoDup (ids (images st)) ->
    images st `sublist_of` hist ->
    fresh_backend calls st ->
    NoDup (ids (images (session calls st)))
    /\ images (session calls st) `sublist_of` insertion_order calls st hist.
Proof.
  induction calls as [ | c calls IH]; intros st hist Hnodup Hsub Hfresh.
  - split; assumption.
  - destruct Hfresh as [Hc Hrest].
    destruct (call_keeps_order c st hist Hnodup Hsub Hc) as [Hnodup' Hsub'].
    rewrite session_cons. cbn [insertion_order].
    apply IH; assumption.
Qed.

Lemma call_within_mirrored (c : Call) (st : State)
    (hist : list UploadedImage) :
  images st `sublist_of` hist ->
  images (final (call c st)) `sublist_of` mirrored c st hist.
Proof.
  intros Hsub.
  destruct c as [ans | event | ans | image_id ans].
  - destruct ans as [e | [[e | [data | ]] | json]]; try exact Hsub.
    cbn [call mirrored]. rewrite (listImages_success_array st data).
    reflexivity.
  - destruct (call_images st (call_selectFile event))
      as [Heq | [(data & Hc & _) | [(result & Hc & _) | (i & Heq)]]];
      try discriminate Hc; cbn [mirrored]; rewrite Heq.
    + exact Hsub.
    + etrans; [apply sublist_filter | exact Hsub].
  - cbn [call mirrored].
    destruct ans as [e | [[e | result] | [e | errorData]]];
      try (unfold uploadStaged; destruct (selectedFile st); exact Hsub).
    destruct (selectedFile st) as [file | ] eqn:Hsel.
    + rewrite (uploadStaged_success st file result Hsel).
      cbn [final images]. apply sublist_skip. exact Hsub.
    + unfold uploadStaged. rewrite Hsel. exact Hsub.
  - cbn [call mirrored].
    destruct ans as [e | [json | json]]; try exact Hsub.
    rewrite deleteImage_ok. cbn [final images].
    etrans; [apply sublist_filter | exact Hsub].
Qed.

Lemma session_within_insertion_order (calls : list Call) :
  forall (st : State) (hist : list UploadedImage),
    images st `sublist_of` hist ->
    images (session calls st) `sublist_of` insertion_order calls st hist.
Proof.
  induction calls as [ | c calls IH]; intros st hist Hsub; [exact Hsub | ].
  rewrite session_cons. cbn [insertion_order].
  apply IH, call_within_mirrored, Hsub.
Qed.

(** Every call but a deletion leaves exactly the collection that the
    ghost history prescribes: the fetched array tagged, the tagged new
    record in front of the old collection, or the old collection. *)
Lemma call_stores_mirrored (c : Call) (st : State) :
  (forall image_id ans, c <> call_deleteImage image_id ans) ->
  images (final (call c st)) = mirrored c st (images st).
Proof.
  intros Hc. destruct c as [ans | event | ans | image_id ans].
  - destruct ans as [e | [[e | [data | ]] | json]]; reflexivity.
  - cbn [call mirrored]. unfold selectFile, handleFileSelect.
    destruct (first_file event) as [file | ]; [ | reflexivity].
    destruct (negb (String.prefix "image/" (File.type file)));
      [reflexivity | ].
    destruct (File.size file >? 5 * 1024 * 1024); reflexivity.
  - cbn [call mirrored]. unfold uploadStaged.
    destruct (selectedFile st) as [file | ];
      destruct ans as [e | [[e | result] | [e | errorData]]]; reflexivity.
  - destruct (Hc image_id ans). reflexivity.
Qed.

(** C1, as the code has it.  The order holds as claimed, for every
    collection reachable from the empty initial state by any sequence of
    calls, whatever the backend answers: the collection is in insertion
    order (a subsequence of the records mirrored since the last listing,
    newest first, followed by that listing in the backend's order), and
    every operation preserves this: a successful upload leaves the
    returned record, tagged, as the first element with the old collection
    behind it; every call but a deletion leaves exactly what the history
    prescribes; a deletion leaves a subsequence of the old collection.
    The identifiers are the backend's: the controller never compares them,
    so they are pairwise distinct when every listing of the backend has
    pairwise distinct identifiers and every record it returns for an upload
    has an identifier that no record of the collection has; and on a
    collection with distinct identifiers the upload keeps them distinct
    exactly when the identifier of the returned record is not in the
    collection yet. *)
Theorem ids_distinct_and_insertion_order (calls : list Call) :
  let st := session calls initial in
  images st `sublist_of` insertion_order calls initial []
  /\ (forall result,
         is_Some (selectedFile st) ->
         head (images (final (uploadStaged (success result) st)))
         = Some (with_status_completed result)
         /\ images (final (uploadStaged (success result) st))
            = with_status_completed result :: images st)
  /\ (forall c,
         (forall image_id ans, c <> call_deleteImage image_id ans) ->
         images (final (call c st)) = mirrored c st (images st))
  /\ (forall image_id ans,
         images (final (deleteImage image_id ans st))
         `sublist_of` images st)
  /\ (fresh_backend calls initial -> NoDup (ids (images st)))
  /\ (forall result,
         is_Some (selectedFile st) ->
         NoDup (ids (images st)) ->
         (NoDup (ids (images (final (uploadStaged (success result) st))))
          <-> id result ∉ ids (images st))).
Proof.
  intros st. subst st.
  split; [ | split; [ | split; [ | split; [ | split]]]].
  - apply session_within_insertion_order. reflexivity.
  - intros result [file Hsel].
    rewrite (uploadStaged_success _ file result Hsel). split; reflexivity.
  - intros c Hc. apply call_stores_mirrored. exact Hc.
  - intros image_id ans. destruct ans as [e | [json | json]];
      try reflexivity.
    rewrite deleteImage_ok. cbn [final images]. apply sublist_filter.
  - intros Hfresh.
    apply (session_keeps_order calls initial []);
      [apply NoDup_nil_2 | reflexivity | exact Hfresh].
  - intros result [file Hsel] Hnodup.
    rewrite (uploadStaged_success _ file result Hsel). cbn [final images].
    unfold ids. cbn [fmap list_fmap]. rewrite NoDup_cons. cbn [id with_status_completed].
    split; [intros [Hfresh _]; exact Hfresh | intros Hfresh; split; assumption].
Qed.

(** C1 fails as stated: with a photo staged and the record [cat] in the
    gallery (identifiers distinct), an upload that the backend answers with
    a record of the same identifier leaves that identifier twice in the
    collection. *)
Lemma upload_repeats_id :
  NoDup (ids (images staged_with_cat))
  /\ ids (images (final (uploadStaged (success cat) staged_with_cat)))
     = ["x"; "x"]
  /\ ~ NoDup (ids (images (final (uploadStaged (success cat)
                                    staged_with_cat)))).
Proof.
  split; [ | split].
  - vm_compute. apply NoDup_singleton.
  - reflexivity.
  - vm_compute. intros H. apply NoDup_cons in H as [Hin _].
    apply Hin. left.
Qed.

Lemma ids_distinct_and_insertion_order_witness :
  fresh_backend staging_calls initial
  /\ is_Some (selectedFile (session staging_calls initial))
  /\ (id dog ∉ ids (images (session staging_calls initial)))
  /\ NoDup (ids (images (session staging_calls initial)))
  /\ images (final (uploadStaged (success dog)
                      (session staging_calls initial)))
     = [with_status_completed dog; with_status_completed cat]
  /\ NoDup (ids (images (final (uploadStaged (success dog)
                                  (session staging_calls initial))))).
Proof.
  assert (Hfresh : fresh_backend staging_calls initial).
  { cbn. repeat split. intros _ Hin.
    apply elem_of_nil in Hin. destruct Hin. }
  assert (Hsel : is_Some (selectedFile (session staging_calls initial)))
    by (exists photo; reflexivity).
  assert (Hdog : id dog ∉ ids (images (session staging_calls initial))).
  { intros Hin. apply list_elem_of_singleton in Hin. discriminate Hin. }
  destruct (ids_distinct_and_insertion_order staging_calls)
    as (_ & Hfirst & _ & _ & Hids & Hupload).
  split; [exact Hfresh | ]. split; [exact Hsel | ].
  split; [exact Hdog | ]. split; [exact (Hids Hfresh) | ].
  split; [exact (proj2 (Hfirst dog Hsel)) | ].
  apply (Hupload dog Hsel (Hids Hfresh)). exact Hdog.
Defined.

(* ===================================================================== *)
(** ** listImages *)
(* ===================================================================== *)

(** C2, the failing path: on a response that is not [ok], [fetchImages]
    leaves the state as it was, as the specification asks, but shows no
    toast at all: the [if (response.ok)] has no [else], and nothing is
    thrown for the [catch] to report. *)
Theorem listImages_not_ok_is_silent (st : State) (json : JsonResult unit) :
  failed (S := ImagesJson) (fetch_resolves (response_not_ok json)) = true
  /\ final (listImages (fetch_resolves (response_not_ok json)) st) = st
  /\ toasts (notices (listImages (fetch_resolves (response_not_ok json)) st))
     = [].
Proof. rewrite listImages_not_ok. repeat split. Qed.

(** The other failure mode of listImages does what the specification
    says: a rejected [fetch] reaches the [catch], which shows a toast. *)
Lemma listImages_rejects_notifies (st : State) (e : Thrown) :
  final (listImages (fetch_rejects e) st) = st
  /\ error_toasts (notices (listImages (fetch_rejects e) st))
     = [toasted_error "Failed to load images"].
Proof. rewrite listImages_rejects. split; reflexivity. Qed.

(** Both failure modes leave the whole state untouched. *)
Lemma listImages_failed_state (st : State)
    (ans : FetchResult ImagesJson unit) :
  failed ans = true -> final (listImages ans st) = st.
Proof.
  destruct ans as [e | [json | json]]; intros Hfailed;
    [reflexivity | discriminate Hfailed | reflexivity].
Qed.

(* ===================================================================== *)
(** ** uploadStaged *)
(* ===================================================================== *)

Lemma with_status_completed_fields (img : UploadedImage) :
  id (with_status_completed img) = id img
  /\ fileName (with_status_completed img) = fileName img
  /\ originalName (with_status_completed img) = originalName img
  /\ mimeType (with_status_completed img) = mimeType img
  /\ size (with_status_completed img) = size img
  /\ uploadedAt (with_status_completed img) = uploadedAt img
  /\ description (with_status_completed img) = description img
  /\ status (with_status_completed img) = Some completed.
Proof. repeat split. Qed.

Lemma occurrences_cons (img x : UploadedImage) (l : list UploadedImage) :
  occurrences img (x :: l)
  = ((if decide (x = img) then 1 else 0) + occurrences img l)%nat.
Proof.
  unfold occurrences. cbn.
  destruct (UploadedImage_eq_dec x img), (decide (x = img));
    try reflexivity; contradiction.
Qed.

Lemma occurrences_absent (img : UploadedImage) (l : list UploadedImage) :
  occurrences img l = 0%nat <-> img ∉ l.
Proof.
  unfold occurrences. rewrite <- count_occ_not_In.
  rewrite list_elem_of_In. reflexivity.
Qed.

(** C3, as the code has it: a successful upload puts the record of the
    response, tagged completed, in front of the collection; the records
    that were there follow it, unchanged and in their order; the staged
    candidate is cleared.  The controller does not look for the record in
    the collection, so the new record occurs exactly once precisely when
    the tagged record was not in the collection already. *)
Theorem uploadStaged_success_prepends (st : State) (file : File)
    (result : UploadedImage) :
  selectedFile st = Some file ->
  let after := final (uploadStaged (success result) st) in
  images after = with_status_completed result :: images st
  /\ status (with_status_completed result) = Some completed
  /\ selectedFile after = None
  /\ (occurrences (with_status_completed result) (images after) = 1%nat
      <-> with_status_completed result ∉ images st).
Proof.
  intros Hsel after. subst after.
  rewrite (uploadStaged_success st file result Hsel). cbn [final images selectedFile].
  repeat split.
  - rewrite occurrences_cons, decide_True by reflexivity.
    intros Hone. apply occurrences_absent. lia.
  - intros Habsent. apply occurrences_absent in Habsent.
    rewrite occurrences_cons, decide_True by reflexivity. lia.
Qed.

Lemma uploadStaged_success_prepends_witness :
  selectedFile staged_with_cat = Some photo
  /\ images (final (uploadStaged (success dog) staged_with_cat))
     = [with_status_completed dog; with_status_completed cat]
  /\ selectedFile (final (uploadStaged (success dog) staged_with_cat)) = None
  /\ occurrences (with_status_completed dog)
       (images (final (uploadStaged (success dog) staged_with_cat))) = 1%nat.
Proof.
  assert (Hsel : selectedFile staged_with_cat = Some photo) by reflexivity.
  destruct (uploadStaged_success_prepends staged_with_cat photo dog Hsel)
    as (Himages & _ & Hcleared & Honce).
  split; [exact Hsel | ].
  split; [exact Himages | ].
  split; [exact Hcleared | ].
  apply Honce. intros Hin.
  apply list_elem_of_singleton in Hin. discriminate Hin.
Defined.

(** C3 fails as stated: with [cat] in the gallery and a photo staged, a
    successful upload whose response is the record [cat] again leaves that
    record twice in the collection, not once. *)
Lemma upload_record_twice :
  selectedFile staged_with_cat = Some photo
  /\ images (final (uploadStaged (success cat) staged_with_cat))
     = [with_status_completed cat; with_status_completed cat]
  /\ occurrences (with_status_completed cat)
       (images (final (uploadStaged (success cat) staged_with_cat)))
     <> 1%nat.
Proof.
  split; [reflexivity | ]. split; [reflexivity | ].
  vm_compute. discriminate.
Qed.

(** A failed upload, whatever the failure, keeps the collection, the
    staged candidate and the file input, and ends with [isUploading]
    reset by the [finally]. *)
Lemma uploadStaged_failed_state (st : State) (file : File)
    (ans : FetchResult UploadedImage ErrorData) :
  selectedFile st = Some file ->
  failed ans = true ->
  final (uploadStaged ans st)
  = {| images := images st; isUploading := false;
       selectedFile := Some file; fileInput := fileInput st |}.
Proof.
  destruct st as [imgs uploading staged input]. unfold uploadStaged.
  cbn [images selectedFile fileInput]. intros -> Hfailed.
  destruct ans as [e | [json | [e | errorData]]];
    [reflexivity | discriminate Hfailed | reflexivity | reflexivity].
Qed.

Lemma message_or_present (m fallback : string) :
  m <> "" -> message_or {| message := Some m |} fallback = m.
Proof.
  intros Hm. unfold message_or. cbn.
  destruct (String.eqb_spec m ""); [contradiction | reflexivity].
Qed.

Lemma message_or_missing (errorData : ErrorData) (fallback : string) :
  message errorData = None \/ message errorData = Some "" ->
  message_or errorData fallback = fallback.
Proof. unfold message_or. intros [-> | ->]; reflexivity. Qed.

Lemma uploadStaged_not_ok_toast (st : State) (file : File)
    (errorData : ErrorData) :
  selectedFile st = Some file ->
  error_toasts (notices (uploadStaged
    (fetch_resolves (response_not_ok (json_resolves errorData))) st))
  = [toasted_error
       ("Upload failed: " ++ message_or errorData "Upload failed")].
Proof. unfold uploadStaged. intros ->. reflexivity. Qed.

(** C4, as the code has it: a failed upload (the request throws, or the
    response is not [ok]) leaves the collection unchanged and the staged
    candidate set, and shows one error toast, "Upload failed: " followed by
    a detail.  For a response that is not [ok] and whose JSON body has a
    non-empty [message], the detail is that message; when the body has no
    [message] or an empty one, it is the generic "Upload failed"; when the
    request or the reading of the body throws, it is the message of the
    thrown error, or "Unknown error" when the thrown value is not an
    [Error]. *)
Theorem uploadStaged_failure (st : State) (file : File) :
  selectedFile st = Some file ->
  (forall ans,
      failed ans = true ->
      images (final (uploadStaged ans st)) = images st
      /\ selectedFile (final (uploadStaged ans st)) = Some file
      /\ exists detail,
           error_toasts (notices (uploadStaged ans st))
           = [toasted_error ("Upload failed: " ++ detail)])
  /\ (forall m,
         m <> "" ->
         error_toasts (notices (uploadStaged
           (fetch_resolves (response_not_ok
              (json_resolves {| message := Some m |}))) st))
         = [toasted_error ("Upload failed: " ++ m)])
  /\ (forall errorData,
         message errorData = None \/ message errorData = Some "" ->
         error_toasts (notices (uploadStaged
           (fetch_resolves (response_not_ok (json_resolves errorData))) st))
         = [toasted_error "Upload failed: Upload failed"])
  /\ (forall e,
         error_toasts (notices (uploadStaged (fetch_rejects e) st))
         = [toasted_error ("Upload failed: " ++ error_message e)]
         /\ error_toasts (notices (uploadStaged
              (fetch_resolves (response_not_ok (json_rejects e))) st))
            = [toasted_error ("Upload failed: " ++ error_message e)]).
Proof.
  intros Hsel. split; [ | split; [ | split]].
  - intros ans Hfailed.
    rewrite (uploadStaged_failed_state st file ans Hsel Hfailed).
    split; [reflexivity | ]. split; [reflexivity | ].
    unfold uploadStaged. rewrite Hsel.
    destruct ans as [e | [json | [e | errorData]]];
      [ | discriminate Hfailed | | ]; eexists; reflexivity.
  - intros m Hm. rewrite (uploadStaged_not_ok_toast st file _ Hsel).
    rewrite (message_or_present m "Upload failed" Hm). reflexivity.
  - intros errorData Hmissing.
    rewrite (uploadStaged_not_ok_toast st file _ Hsel).
    rewrite (message_or_missing errorData "Upload failed" Hmissing).
    reflexivity.
  - intros e. unfold uploadStaged. rewrite Hsel. split; reflexivity.
Qed.

Lemma uploadStaged_failure_witness :
  selectedFile staged_with_cat = Some photo
  /\ images (final (uploadStaged (fetch_rejects NotAnError) staged_with_cat))
     = images staged_with_cat
  /\ selectedFile
       (final (uploadStaged (fetch_rejects NotAnError) staged_with_cat))
     = Some photo
  /\ error_toasts (notices (uploadStaged
       (fetch_resolves (response_not_ok
          (json_resolves {| message := Some "No description" |})))
       staged_with_cat))
     = [toasted_error "Upload failed: No description"]
  /\ error_toasts (notices (uploadStaged
       (fetch_resolves (response_not_ok
          (json_resolves {| message := None |})))
       staged_with_cat))
     = [toasted_error "Upload failed: Upload failed"].
Proof.
  assert (Hsel : selectedFile staged_with_cat = Some photo) by reflexivity.
  destruct (uploadStaged_failure staged_with_cat photo Hsel)
    as (Hstate & Hpresent & Hmissing & _).
  destruct (Hstate (fetch_rejects NotAnError) eq_refl)
    as (Himages & Hstaged & _).
  split; [exact Hsel | ].
  split; [exact Himages | ].
  split; [exact Hstaged | ].
  split.
  - apply Hpresent. discriminate.
  - apply Hmissing. left; reflexivity.
Defined.

(** C4 fails as stated: a response that is not [ok] and whose body has
    the field [message] set to the empty string does have a [message], yet
    the toast carries the generic text in its place ([||] takes the empty
    string for absent). *)
Lemma empty_message_not_surfaced :
  failed empty_message = true
  /\ message {| message := Some "" |} = Some ""
  /\ error_toasts (notices (uploadStaged empty_message staged_with_cat))
     = [toasted_error "Upload failed: Upload failed"]
  /\ error_toasts (notices (uploadStaged empty_message staged_with_cat))
     <> [toasted_error ("Upload failed: " ++ "")].
Proof.
  split; [reflexivity | ]. split; [reflexivity | ]. split; [reflexivity | ].
  vm_compute. discriminate.
Qed.

(* ===================================================================== *)
(** ** deleteImage *)
(* ===================================================================== *)

Lemma occurrences_filter (P : UploadedImage -> Prop)
    `{!forall img, Decision (P img)} (img : UploadedImage)
    (l : list UploadedImage) :
  P img -> occurrences img (filter P l) = occurrences img l.
Proof.
  intros HP. induction l as [ | x l IH]; [reflexivity | ].
  rewrite filter_cons. destruct (decide (P x)) as [HPx | HPx].
  - rewrite !occurrences_cons, IH. reflexivity.
  - rewrite occurrences_cons, IH.
    rewrite decide_False; [reflexivity | ].
    intros ->. contradiction.
Qed.

(** C5: a successful deleteImage keeps exactly the records whose
    identifier differs from the given one.  A record is in the collection
    afterwards if and only if it was there and its identifier differs; the
    collection afterwards is a subsequence of the old one (relative order
    kept); and every record with another identifier occurs as often as
    before (none lost, none changed). *)
Theorem deleteImage_success (st : State) (image_id : string)
    (json : JsonResult unit) :
  let after :=
    final (deleteImage image_id (fetch_resolves (response_ok json)) st) in
  (forall img, img ∈ images after <-> img ∈ images st /\ id img <> image_id)
  /\ images after `sublist_of` images st
  /\ (forall img,
         id img <> image_id ->
         occurrences img (images after) = occurrences img (images st))
  /\ selectedFile after = selectedFile st.
Proof.
  intros after. subst after. rewrite deleteImage_ok. cbn [final images selectedFile].
  split; [ | split; [ | split]].
  - intros img. rewrite list_elem_of_filter. tauto.
  - apply sublist_filter.
  - intros img Hid.
    apply (occurrences_filter (fun img => id img <> image_id)). exact Hid.
  - reflexivity.
Qed.

Lemma deleteImage_success_witness :
  id (with_status_completed dog) <> "x"
  /\ images (final (deleteImage "x" (success tt) dog_cat_dog))
     = [with_status_completed dog; with_status_completed dog]
  /\ occurrences (with_status_completed dog)
       (images (final (deleteImage "x" (success tt) dog_cat_dog)))
     = occurrences (with_status_completed dog) (images dog_cat_dog).
Proof.
  assert (Hid : id (with_status_completed dog) <> "x") by discriminate.
  split; [exact Hid | ]. split; [reflexivity | ].
  apply (deleteImage_success dog_cat_dog "x" (json_resolves tt)).
  exact Hid.
Defined.

(** C6: a failed deleteImage (the request throws, or the response is not
    [ok]) leaves the collection, and the rest of the state, exactly as it
    was, and shows one error toast. *)
Theorem deleteImage_failure (st : State) (image_id : string)
    (ans : FetchResult unit unit) :
  failed ans = true ->
  final (deleteImage image_id ans st) = st
  /\ images (final (deleteImage image_id ans st)) = images st
  /\ exists msg,
       error_toasts (notices (deleteImage image_id ans st))
       = [toasted_error msg].
Proof.
  intros Hfailed.
  destruct ans as [e | [json | json]]; [ | discriminate Hfailed | ].
  - repeat split. exists "An error occurred while deleting the image".
    reflexivity.
  - repeat split. exists "Failed to delete image". reflexivity.
Qed.

Lemma deleteImage_failure_witness :
  failed (S := unit) (F := unit)
    (fetch_resolves (response_not_ok (json_resolves tt))) = true
  /\ final (deleteImage "x"
              (fetch_resolves (response_not_ok (json_resolves tt)))
              staged_with_cat)
     = staged_with_cat.
Proof.
  split; [reflexivity | ].
  apply (deleteImage_failure staged_with_cat "x"
           (fetch_resolves (response_not_ok (json_resolves tt)))).
  reflexivity.
Defined.

(* ===================================================================== *)
(** ** The status tag *)
(* ===================================================================== *)

Lemma call_keeps_completed (c : Call) (st : State) :
  Forall is_completed (images st) ->
  Forall is_completed (images (final (call c st))).
Proof.
  intros Hall.
  destruct (call_images st c)
    as [Heq | [(data & _ & Heq) | [(result & _ & _ & Heq) | (i & Heq)]]];
    rewrite Heq.
  - exact Hall.
  - apply Forall_fmap, Forall_true. intros img. reflexivity.
  - apply Forall_cons. split; [reflexivity | exact Hall].
  - apply Forall_forall. intros img Hin.
    apply list_elem_of_filter in Hin as [_ Hin].
    revert img Hin. apply Forall_forall. exact Hall.
Qed.

Lemma session_keeps_completed (calls : list Call) :
  forall st,
    Forall is_completed (images st) ->
    Forall is_completed (images (session calls st)).
Proof.
  induction calls as [ | c calls IH]; intros st Hall; [exact Hall | ].
  rewrite session_cons. apply IH, call_keeps_completed, Hall.
Qed.

(** C7: after any sequence of calls from the initial state, whatever the
    backend answered, every record of the collection has status
    "completed", and so none has status "analyzing".  Both sources of
    records tag: a successful listing leaves exactly the fetched array, in
    its order, each record tagged; a successful upload leaves the returned
    record, tagged, in front of the old collection; and a tagged record is
    the record of the backend with status "completed" in the place of
    whatever status the backend sent, all other fields kept. *)
Theorem status_always_completed (calls : list Call) :
  Forall (fun img => status img = Some completed
                     /\ status img <> Some analyzing)
         (images (session calls initial))
  /\ (forall st data,
         images (final (listImages (success (json_array data)) st))
         = with_status_completed <$> data
         /\ (forall i img,
                data !! i = Some img ->
                images (final (listImages (success (json_array data)) st))
                  !! i
                = Some (with_status_completed img))
         /\ Forall is_completed
              (images (final (listImages (success (json_array data)) st))))
  /\ (forall st result,
         is_Some (selectedFile st) ->
         head (images (final (uploadStaged (success result) st)))
         = Some (with_status_completed result)
         /\ images (final (uploadStaged (success result) st))
            = with_status_completed result :: images st
         /\ is_completed (with_status_completed result))
  /\ (forall img,
         with_status_completed img
         = {| id := id img; fileName := fileName img;
              originalName := originalName img; mimeType := mimeType img;
              size := size img; uploadedAt := uploadedAt img;
              description := description img; status := Some completed |}
         /\ status (with_status_completed img) = Some completed
         /\ status (with_status_completed img) <> Some analyzing).
Proof.
  split; [ | split; [ | split]].
  - eapply Forall_impl.
    + apply session_keeps_completed. apply Forall_nil_2.
    + intros img Hc. unfold is_completed in Hc. rewrite Hc.
      split; [reflexivity | discriminate].
  - intros st data. rewrite listImages_success_array. cbn [final images].
    split; [reflexivity | ]. split.
    + intros i img Hi. rewrite list_lookup_fmap, Hi. reflexivity.
    + apply Forall_fmap, Forall_true. intros img. reflexivity.
  - intros st result [file Hsel].
    rewrite (uploadStaged_success st file result Hsel).
    repeat split.
  - intros img. split; [reflexivity | ].
    split; [reflexivity | discriminate].
Qed.

Lemma status_always_completed_witness :
  status dog = Some analyzing
  /\ images (session listing_calls initial)
     = [with_status_completed dog; with_status_completed cat]
  /\ Forall (fun img => status img = Some completed
                        /\ status img <> Some analyzing)
            (images (session listing_calls initial))
  /\ images (final (listImages (success (json_array [dog; cat]))
                      staged_with_cat)) !! 0%nat
     = Some (with_status_completed dog)
  /\ is_Some (selectedFile staged_with_cat)
  /\ images (final (uploadStaged (success dog) staged_with_cat))
     = [with_status_completed dog; with_status_completed cat].
Proof.
  assert (Hsel : is_Some (selectedFile staged_with_cat))
    by (exists photo; reflexivity).
  destruct (status_always_completed listing_calls)
    as (Hsession & Hlisting & Hupload & _).
  destruct (Hlisting initial [dog; cat]) as (Hstored & _ & _).
  destruct (Hlisting staged_with_cat [dog; cat]) as (_ & Hat & _).
  destruct (Hupload staged_with_cat dog Hsel) as (_ & Hfront & _).
  split; [reflexivity | ]. split; [exact Hstored | ].
  split; [exact Hsession | ].
  split; [exact (Hat 0%nat dog eq_refl) | ].
  split; [exact Hsel | exact Hfront].
Defined.

(* ===================================================================== *)
(** ** selectFile *)
(* ===================================================================== *)

(** C8: a file whose media type does not start with "image/", or whose
    size is strictly above 5 * 1024 * 1024 bytes, is rejected: the state,
    and with it the staged candidate, is as before, and the one notice is
    an error toast.  A file of an image type and of exactly
    5 * 1024 * 1024 bytes is accepted and becomes the staged candidate. *)
Theorem selectFile_rejects (st : State) (event : ChangeEvent) (file : File) :
  first_file event = Some file ->
  (String.prefix "image/" (File.type file) = false
   \/ File.size file > 5 * 1024 * 1024 ->
   final (selectFile event st) = st
   /\ selectedFile (final (selectFile event st)) = selectedFile st
   /\ exists msg, notices (selectFile event st) = [toasted_error msg])
  /\ (String.prefix "image/" (File.type file) = true ->
      File.size file = 5 * 1024 * 1024 ->
      selectedFile (final (selectFile event st)) = Some file).
Proof.
  intros Hfile. unfold selectFile, handleFileSelect. rewrite Hfile.
  split.
  - intros Hbad.
    destruct (String.prefix "image/" (File.type file)) eqn:Htype; cbn [negb].
    + destruct Hbad as [Hbad | Hsize]; [discriminate Hbad | ].
      apply Z.gt_lt, Z.gtb_lt in Hsize. rewrite Hsize.
      repeat split. eexists; reflexivity.
    + repeat split. eexists; reflexivity.
  - intros Htype Hsize. rewrite Htype, Hsize. reflexivity.
Qed.

Lemma selectFile_rejects_witness :
  (first_file (choose notes) = Some notes
   /\ String.prefix "image/" (File.type notes) = false
   /\ final (selectFile (choose notes) staged_with_cat) = staged_with_cat)
  /\ (first_file (choose too_large) = Some too_large
      /\ File.size too_large > 5 * 1024 * 1024
      /\ final (selectFile (choose too_large) staged_with_cat)
         = staged_with_cat)
  /\ (first_file (choose largest) = Some largest
      /\ String.prefix "image/" (File.type largest) = true
      /\ File.size largest = 5 * 1024 * 1024
      /\ selectedFile (final (selectFile (choose largest) staged_with_cat))
         = Some largest).
Proof.
  split; [ | split].
  - split; [reflexivity | ]. split; [reflexivity | ].
    apply (selectFile_rejects staged_with_cat (choose notes) notes eq_refl).
    left; reflexivity.
  - split; [reflexivity | ]. split; [reflexivity | ].
    apply (selectFile_rejects staged_with_cat (choose too_large) too_large
             eq_refl).
    right; reflexivity.
  - split; [reflexivity | ]. split; [reflexivity | ].
    split; [reflexivity | ].
    apply (selectFile_rejects staged_with_cat (choose largest) largest
             eq_refl); reflexivity.
Defined.

(** C10: a change event without a file ([files] is [null] or empty) ends
    [handleFileSelect] at once: no notice of any kind, and the state, so
    the staged candidate and the collection, as before. *)
Theorem selectFile_without_file (st : State) (event : ChangeEvent) :
  files event = None \/ files event = Some [] ->
  selectFile event st = mkRun st [] (returned tt)
  /\ notices (selectFile event st) = []
  /\ selectedFile (final (selectFile event st)) = selectedFile st
  /\ images (final (selectFile event st)) = images st.
Proof.
  intros Hnone.
  assert (Hfile : first_file event = None).
  { unfold first_file. destruct Hnone as [-> | ->]; reflexivity. }
  unfold selectFile, handleFileSelect. rewrite Hfile. repeat split.
Qed.

Lemma selectFile_without_file_witness :
  files {| files := Some [] |} = Some []
  /\ selectFile {| files := Some [] |} staged_with_cat
     = mkRun staged_with_cat [] (returned tt)
  /\ selectFile {| files := None |} staged_with_cat
     = mkRun staged_with_cat [] (returned tt).
Proof.
  split; [reflexivity | ]. split.
  - apply (selectFile_without_file staged_with_cat {| files := Some [] |}).
    right; reflexivity.
  - apply (selectFile_without_file staged_with_cat {| files := None |}).
    left; reflexivity.
Defined.

(* ===================================================================== *)
(** ** uploadStaged without a staged candidate *)
(* ===================================================================== *)

(** C9: with no staged candidate, [handleUpload] issues no request,
    whatever the backend would have answered, shows the error toast
    "Please select an image first", and leaves the state, so the
    collection and the (absent) staged candidate, as it was. *)
Theorem uploadStaged_nothing_staged (st : State) (net : Network) :
  selectedFile st = None ->
  requests (notices (run (handleUpload (selectedFile st)) net st)) = []
  /\ notices (run (handleUpload (selectedFile st)) net st)
     = [toasted_error "Please select an image first"]
  /\ final (run (handleUpload (selectedFile st)) net st) = st
  /\ (forall ans,
         uploadStaged ans st
         = mkRun st [toasted_error "Please select an image first"]
                 (returned tt)).
Proof.
  intros Hsel. unfold uploadStaged. rewrite Hsel. repeat split.
Qed.

Lemma uploadStaged_nothing_staged_witness :
  selectedFile initial = None
  /\ requests (notices (uploadStaged (success cat) initial)) = []
  /\ final (uploadStaged (success cat) initial) = initial.
Proof.
  destruct (uploadStaged_nothing_staged initial
              (upload_answer (success cat)) eq_refl)
    as (Hrequests & _ & Hfinal & _).
  split; [reflexivity | ]. split; [exact Hrequests | exact Hfinal].
Defined.

(* ===================================================================== *)
(** ** Further properties of selectFile *)
(* ===================================================================== *)

(** X1: a file of an image type and of at most 5 * 1024 * 1024 bytes is
    staged: it replaces whatever was staged, the one notice is the success
    toast, no request is made and the rest of the state is as before. *)
Theorem selectFile_stages_file (st : State) (event : ChangeEvent)
    (file : File) :
  first_file event = Some file ->
  acceptable file ->
  selectFile event st
  = mkRun {| images := images st; isUploading := isUploading st;
             selectedFile := Some file; fileInput := fileInput st |}
          [toasted_success "Image selected! Click upload to analyze."]
          (returned tt).
Proof.
  intros Hfile [Htype Hsize].
  unfold selectFile, handleFileSelect. rewrite Hfile, Htype. cbn [negb].
  assert (Hle : (File.size file >? 5 * 1024 * 1024) = false).
  { rewrite Z.gtb_ltb. apply Z.ltb_ge. exact Hsize. }
  rewrite Hle. reflexivity.
Qed.

Lemma selectFile_stages_file_witness :
  first_file (choose largest) = Some largest
  /\ acceptable largest
  /\ selectedFile staged_with_cat = Some photo
  /\ selectedFile (final (selectFile (choose largest) staged_with_cat))
     = Some largest.
Proof.
  assert (Hok : acceptable largest) by (split; [reflexivity | discriminate]).
  split; [reflexivity | ]. split; [exact Hok | ]. split; [reflexivity | ].
  rewrite (selectFile_stages_file staged_with_cat (choose largest) largest
             eq_refl Hok).
  reflexivity.
Defined.

(** X2: the type is checked before the size.  A file that is not of an
    image type gets the message about the type whatever its size; a file of
    an image type above the limit gets the message about the size.  Only
    the first file of a selection is looked at. *)
Theorem selectFile_type_checked_first (st : State) (file : File)
    (others : list File) :
  (String.prefix "image/" (File.type file) = false ->
   notices (selectFile {| files := Some (file :: others) |} st)
   = [toasted_error "Please select a valid image file (JPEG/PNG)"])
  /\ (String.prefix "image/" (File.type file) = true ->
      File.size file > 5 * 1024 * 1024 ->
      notices (selectFile {| files := Some (file :: others) |} st)
      = [toasted_error "File size must be less than 5MB"]).
Proof.
  unfold selectFile, handleFileSelect. cbn [first_file files head].
  split.
  - intros ->. reflexivity.
  - intros -> Hsize. cbn [negb].
    apply Z.gt_lt, Z.gtb_lt in Hsize. rewrite Hsize. reflexivity.
Qed.

Lemma selectFile_type_checked_first_witness :
  String.prefix "image/" (File.type notes) = false
  /\ notices (selectFile {| files := Some [notes; photo] |} initial)
     = [toasted_error "Please select a valid image file (JPEG/PNG)"]
  /\ String.prefix "image/" (File.type too_large) = true
  /\ File.size too_large > 5 * 1024 * 1024
  /\ notices (selectFile {| files := Some [too_large] |} initial)
     = [toasted_error "File size must be less than 5MB"].
Proof.
  split; [reflexivity | ]. split.
  - apply (selectFile_type_checked_first initial notes [photo]). reflexivity.
  - split; [reflexivity | ]. split; [reflexivity | ].
    apply (selectFile_type_checked_first initial too_large []); reflexivity.
Defined.

(* ===================================================================== *)
(** ** What every handler does, whatever the backend *)
(* ===================================================================== *)

(** X3: no handler lets an exception escape: against any backend, each of
    the four handlers returns normally (every [throw] and every rejected
    promise is inside a [try] with a [catch]). *)
Theorem handlers_never_throw (net : Network) (st : State) :
  outcome (run fetchImages net st) = returned tt
  /\ (forall event, outcome (run (handleFileSelect event) net st)
                    = returned tt)
  /\ (forall staged, outcome (run (handleUpload staged) net st)
                     = returned tt)
  /\ (forall image_id, outcome (run (handleDelete image_id) net st)
                       = returned tt).
Proof.
  split; [ | split; [ | split]].
  - unfold run, fetchImages. cbn.
    destruct (net ImagesJson unit GetImages)
      as [e | [[e | [data | ]] | json]]; reflexivity.
  - intros event. unfold run, handleFileSelect.
    destruct (first_file event) as [file | ]; [ | reflexivity].
    destruct (negb (String.prefix "image/" (File.type file)));
      [reflexivity | ].
    destruct (File.size file >? 5 * 1024 * 1024); reflexivity.
  - intros [file | ]; [ | reflexivity].
    unfold run, handleUpload. cbn.
    destruct (net UploadedImage ErrorData (PostUpload file))
      as [e | [[e | result] | [e | errorData]]]; reflexivity.
  - intros image_id. unfold run, handleDelete. cbn.
    destruct (net unit unit (DeleteImage image_id))
      as [e | [json | json]]; reflexivity.
Qed.

(** X4: one request per call and never a second one: against any backend,
    whatever it answers, [fetchImages] sends exactly the GET of the
    listing, [handleDelete] exactly one DELETE whose URL ends with the
    identifier, [handleUpload] with a staged file exactly one POST with the
    file in the form field [image], and [handleFileSelect] nothing. *)
Theorem one_request_per_call (net : Network) (st : State) :
  requests (notices (run fetchImages net st))
  = [{| method := "GET"; url := "http://localhost:5050/api/images";
        formData := [] |}]
  /\ (forall image_id,
         requests (notices (run (handleDelete image_id) net st))
         = [{| method := "DELETE";
               url := "http://localhost:5050/api/image/" ++ image_id;
               formData := [] |}])
  /\ (forall file,
         requests (notices (run (handleUpload (Some file)) net st))
         = [{| method := "POST"; url := "http://localhost:5050/api/upload";
               formData := [("image", file)] |}])
  /\ (forall event,
         requests (notices (run (handleFileSelect event) net st)) = []).
Proof.
  split; [ | split; [ | split]].
  - unfold run, fetchImages. cbn.
    destruct (net ImagesJson unit GetImages)
      as [e | [[e | [data | ]] | json]]; reflexivity.
  - intros image_id. unfold run, handleDelete. cbn.
    destruct (net unit unit (DeleteImage image_id))
      as [e | [json | json]]; reflexivity.
  - intros file. unfold run, handleUpload. cbn.
    destruct (net UploadedImage ErrorData (PostUpload file))
      as [e | [[e | result] | [e | errorData]]]; reflexivity.
  - intros event. unfold run, handleFileSelect.
    destruct (first_file event) as [file | ]; [ | reflexivity].
    destruct (negb (String.prefix "image/" (File.type file)));
      [reflexivity | ].
    destruct (File.size file >? 5 * 1024 * 1024); reflexivity.
Qed.

(* ===================================================================== *)
(** ** Further properties of listImages *)
(* ===================================================================== *)

(** X5: a successful listing replaces the whole collection, whatever it
    held: afterwards the collection is the fetched array in the backend's
    order, as long as the array and with the same identifiers, every record
    tagged completed; no toast is shown and the staged file, the uploading
    flag and the file input are untouched. *)
Theorem listImages_replaces_collection (st : State)
    (data : list UploadedImage) :
  let r := listImages (success (json_array data)) st in
  images (final r) = with_status_completed <$> data
  /\ ids (images (final r)) = ids data
  /\ length (images (final r)) = length data
  /\ toasts (notices r) = []
  /\ selectedFile (final r) = selectedFile st
  /\ isUploading (final r) = isUploading st
  /\ fileInput (final r) = fileInput st.
Proof.
  intros r. subst r. rewrite listImages_success_array.
  cbn [final images notices selectedFile isUploading fileInput].
  rewrite ids_tagged, length_fmap. repeat split.
Qed.

(** X6: a listing whose response is [ok] but whose body cannot be used
    ([json()] rejects, or the JSON is not an array, so that [data.map]
    throws) ends in the [catch]: the state is as before and the error toast
    "Failed to load images" is shown. *)
Theorem listImages_unusable_body (st : State) (json : JsonResult ImagesJson) :
  (forall data, json <> json_resolves (json_array data)) ->
  final (listImages (fetch_resolves (response_ok json)) st) = st
  /\ error_toasts (notices (listImages (fetch_resolves (response_ok json)) st))
     = [toasted_error "Failed to load images"].
Proof.
  intros Hjson. destruct json as [e | [data | ]].
  - split; reflexivity.
  - destruct (Hjson data). reflexivity.
  - split; reflexivity.
Qed.

Lemma listImages_unusable_body_witness :
  final (listImages (success json_not_array) staged_with_cat)
  = staged_with_cat
  /\ error_toasts (notices (listImages (success json_not_array)
                              staged_with_cat))
     = [toasted_error "Failed to load images"].
Proof.
  apply (listImages_unusable_body staged_with_cat
           (json_resolves json_not_array)).
  intros data. discriminate.
Defined.

(** X7: listing is idempotent: a second listing that gets the same answer
    as the first leaves the state the first one produced. *)
Theorem listImages_idempotent (st : State)
    (ans : FetchResult ImagesJson unit) :
  final (listImages ans (final (listImages ans st)))
  = final (listImages ans st).
Proof.
  destruct ans as [e | [[e | [data | ]] | json]]; reflexivity.
Qed.

(* ===================================================================== *)
(** ** Further properties of uploadStaged *)
(* ===================================================================== *)

(** X8: an upload whose response is [ok] but whose body cannot be read
    ([json()] rejects) counts as failed: the collection is unchanged, the
    staged file is kept, the uploading flag is reset, and the error toast
    carries the message of the thrown error. *)
Theorem uploadStaged_unreadable_success (st : State) (file : File)
    (e : Thrown) :
  selectedFile st = Some file ->
  let r := uploadStaged (fetch_resolves (response_ok (json_rejects e))) st in
  images (final r) = images st
  /\ selectedFile (final r) = Some file
  /\ isUploading (final r) = false
  /\ fileInput (final r) = fileInput st
  /\ toasts (notices r)
     = [toasted_error ("Upload failed: " ++ error_message e)].
Proof.
  destruct st as [imgs uploading staged input]. unfold uploadStaged.
  cbn [images selectedFile fileInput]. intros ->. repeat split.
Qed.

Lemma uploadStaged_unreadable_success_witness :
  selectedFile staged_with_cat = Some photo
  /\ images (final (uploadStaged
       (fetch_resolves (response_ok (json_rejects (JsError "Unexpected end"))))
       staged_with_cat))
     = images staged_with_cat
  /\ toasts (notices (uploadStaged
       (fetch_resolves (response_ok (json_rejects (JsError "Unexpected end"))))
       staged_with_cat))
     = [toasted_error "Upload failed: Unexpected end"].
Proof.
  destruct (uploadStaged_unreadable_success staged_with_cat photo
              (JsError "Unexpected end") eq_refl)
    as (Himages & _ & _ & _ & Htoast).
  split; [reflexivity | ]. split; [exact Himages | exact Htoast].
Defined.

(** X9: the uploading flag brackets the request.  With a file staged, the
    component is rendered with [isUploading] set while the upload is in
    flight, nothing else changed, so that the upload button is disabled
    and reads "Uploading & Analyzing..."; when the handler has ended,
    whatever the backend answered, the flag is reset. *)
Theorem uploading_flag_brackets_request (st : State) (file : File) :
  selectedFile st = Some file ->
  state_at_fetch (handleUpload (selectedFile st)) st
  = Some {| images := images st; isUploading := true;
            selectedFile := Some file; fileInput := fileInput st |}
  /\ (forall pending,
         state_at_fetch (handleUpload (selectedFile st)) st = Some pending ->
         uploadButton (render pending)
         = Some {| disabled := true; caption := "Uploading & Analyzing..." |})
  /\ (forall ans, isUploading (final (uploadStaged ans st)) = false).
Proof.
  destruct st as [imgs uploading staged input].
  cbn [images selectedFile fileInput]. intros ->.
  split; [reflexivity | ]. split.
  - intros pending Hpending. cbn in Hpending.
    injection Hpending as <-. reflexivity.
  - intros ans. unfold uploadStaged. cbn [selectedFile].
    destruct ans as [e | [[e | result] | [e | errorData]]]; reflexivity.
Qed.

Lemma uploading_flag_brackets_request_witness :
  selectedFile staged_with_cat = Some photo
  /\ option_map isUploading
       (state_at_fetch (handleUpload (selectedFile staged_with_cat))
          staged_with_cat)
     = Some true
  /\ isUploading (final (uploadStaged (fetch_rejects NotAnError)
                           staged_with_cat))
     = false.
Proof.
  destruct (uploading_flag_brackets_request staged_with_cat photo eq_refl)
    as (Hpending & _ & Hreset).
  split; [reflexivity | ]. split.
  - rewrite Hpending. reflexivity.
  - apply Hreset.
Defined.

(* ===================================================================== *)
(** ** Toasts and the collection *)
(* ===================================================================== *)

(** X10: an error toast means that nothing was stored: whatever the call
    and the answer of the backend, when the call shows an error toast the
    collection and the staged file are as they were before the call. *)
Theorem error_toast_means_unchanged (c : Call) (st : State) :
  error_toasts (notices (call c st)) <> [] ->
  images (final (call c st)) = images st
  /\ selectedFile (final (call c st)) = selectedFile st.
Proof.
  destruct st as [imgs uploading staged input].
  destruct c as [ans | event | ans | image_id ans]; cbn [call].
  - destruct ans as [e | [[e | [data | ]] | json]]; intros Htoast;
      try (split; reflexivity); destruct Htoast; reflexivity.
  - unfold selectFile, handleFileSelect.
    destruct (first_file event) as [file | ];
      [ | intros _; split; reflexivity].
    destruct (negb (String.prefix "image/" (File.type file)));
      [intros _; split; reflexivity | ].
    destruct (File.size file >? 5 * 1024 * 1024);
      [intros _; split; reflexivity | ].
    intros Htoast. destruct Htoast. reflexivity.
  - unfold uploadStaged. cbn [selectedFile].
    destruct staged as [file | ]; [ | intros _; split; reflexivity].
    destruct ans as [e | [[e | result] | [e | errorData]]]; intros Htoast;
      try (split; reflexivity); destruct Htoast; reflexivity.
  - destruct ans as [e | [json | json]]; intros Htoast;
      try (split; reflexivity); destruct Htoast; reflexivity.
Qed.

Lemma error_toast_means_unchanged_witness :
  error_toasts (notices (call (call_uploadStaged empty_message)
                           staged_with_cat)) <> []
  /\ images (final (call (call_uploadStaged empty_message) staged_with_cat))
     = images staged_with_cat.
Proof.
  assert (Htoast :
    error_toasts (notices (call (call_uploadStaged empty_message)
                             staged_with_cat)) <> [])
    by discriminate.
  split; [exact Htoast | ].
  apply (error_toast_means_unchanged (call_uploadStaged empty_message)
           staged_with_cat Htoast).
Defined.

(** X11: an upload and a deletion always tell the user how they ended:
    whatever the state and the answer, each shows exactly one toast; it is
    a success toast exactly when the upload was stored (a file was staged
    and the response was [ok] with a readable record), respectively when
    the response to the deletion was [ok]. *)
Theorem upload_and_delete_always_toast (st : State) :
  (forall ans,
      exists t,
        toasts (notices (uploadStaged ans st)) = [t]
        /\ (is_error_toast t = false
            <-> exists file result,
                  selectedFile st = Some file /\ ans = success result))
  /\ (forall image_id ans,
         exists t,
           toasts (notices (deleteImage image_id ans st)) = [t]
           /\ is_error_toast t = failed ans).
Proof.
  split.
  - intros ans. unfold uploadStaged.
    destruct (selectedFile st) as [file | ].
    + destruct ans as [e | [[e | result] | [e | errorData]]];
        eexists; (split; [reflexivity | ]); cbn;
        (split; [intros H; try discriminate H; eauto
                | intros (f & r & _ & H); try discriminate H; reflexivity]).
    + eexists; split; [reflexivity | ]. cbn.
      split; [intros H; discriminate H | intros (f & r & H & _)].
      discriminate H.
  - intros image_id ans.
    destruct ans as [e | [json | json]]; eexists; split; reflexivity.
Qed.

Lemma upload_and_delete_always_toast_witness :
  selectedFile staged_with_cat = Some photo
  /\ toasts (notices (uploadStaged (success dog) staged_with_cat))
     = [toasted_success "Image uploaded and analyzed successfully!"]
  /\ toasts (notices (deleteImage "x" (fetch_rejects NotAnError)
                        staged_with_cat))
     = [toasted_error "An error occurred while deleting the image"].
Proof.
  destruct (upload_and_delete_always_toast staged_with_cat)
    as [Hupload Hdelete].
  destruct (Hupload (success dog)) as (t & Ht & Hsuccess).
  destruct (Hdelete "x" (fetch_rejects NotAnError)) as (t' & Ht' & _).
  split; [reflexivity | ]. split.
  - rewrite Ht. injection Ht as <-. reflexivity.
  - rewrite Ht'. injection Ht' as <-. reflexivity.
Defined.

(* ===================================================================== *)
(** ** Invariants of a session *)
(* ===================================================================== *)

Lemma call_keeps_idle (c : Call) (st : State) :
  isUploading st = false -> isUploading (final (call c st)) = false.
Proof.
  destruct st as [imgs uploading staged input]. cbn [isUploading].
  intros ->.
  destruct c as [ans | event | ans | image_id ans]; cbn [call].
  - destruct ans as [e | [[e | [data | ]] | json]]; reflexivity.
  - unfold selectFile, handleFileSelect.
    destruct (first_file event) as [file | ]; [ | reflexivity].
    destruct (negb (String.prefix "image/" (File.type file)));
      [reflexivity | ].
    destruct (File.size file >? 5 * 1024 * 1024); reflexivity.
  - unfold uploadStaged. cbn [selectedFile].
    destruct staged as [file | ]; [ | reflexivity].
    destruct ans as [e | [[e | result] | [e | errorData]]]; reflexivity.
  - destruct ans as [e | [json | json]]; reflexivity.
Qed.

Lemma call_keeps_acceptable (c : Call) (st : State) :
  (forall file, selectedFile st = Some file -> acceptable file) ->
  forall file,
    selectedFile (final (call c st)) = Some file -> acceptable file.
Proof.
  destruct st as [imgs uploading staged input]. cbn [selectedFile].
  intros Hst.
  destruct c as [ans | event | ans | image_id ans]; cbn [call].
  - destruct ans as [e | [[e | [data | ]] | json]]; exact Hst.
  - unfold selectFile, handleFileSelect.
    destruct (first_file event) as [chosen | ]; [ | exact Hst].
    destruct (String.prefix "image/" (File.type chosen)) eqn:Htype;
      cbn [negb]; [ | exact Hst].
    destruct (File.size chosen >? 5 * 1024 * 1024) eqn:Hsize;
      [exact Hst | ].
    cbn. intros file [= <-]. split; [exact Htype | ].
    rewrite Z.gtb_ltb in Hsize. apply Z.ltb_ge. exact Hsize.
  - unfold uploadStaged. cbn [selectedFile].
    destruct staged as [chosen | ]; [ | exact Hst].
    destruct ans as [e | [[e | result] | [e | errorData]]];
      try exact Hst.
    cbn. intros file Hnone. discriminate Hnone.
  - destruct ans as [e | [json | json]]; exact Hst.
Qed.

Lemma session_keeps_acceptable (calls : list Call) :
  forall st,
    (forall file, selectedFile st = Some file -> acceptable file) ->
    forall file,
      selectedFile (session calls st) = Some file -> acceptable file.
Proof.
  induction calls as [ | c calls IH]; intros st Hst; [exact Hst | ].
  rewrite session_cons. apply IH. apply call_keeps_acceptable. exact Hst.
Qed.

(** X12: between calls the component is never left uploading: after any
    sequence of completed calls from the initial state, whatever the
    backend answered, [isUploading] is false, so the upload button, when
    it is rendered, is enabled and reads "Upload & Analyze". *)
Theorem session_ends_idle (calls : list Call) :
  isUploading (session calls initial) = false
  /\ (uploadButton (render (session calls initial)) = None
      \/ uploadButton (render (session calls initial))
         = Some {| disabled := false; caption := "Upload & Analyze" |}).
Proof.
  assert (Hidle : isUploading (session calls initial) = false).
  { assert (Hgen : forall st, isUploading st = false ->
                              isUploading (session calls st) = false).
    { induction calls as [ | c calls IH]; intros st Hst; [exact Hst | ].
      rewrite session_cons. apply IH, call_keeps_idle, Hst. }
    apply Hgen. reflexivity. }
  split; [exact Hidle | ].
  unfold render. cbn [uploadButton]. rewrite Hidle.
  destruct (selectedFile (session calls initial)); [right | left];
    reflexivity.
Qed.

(** X13: only validated files are ever uploaded: after any sequence of
    calls from the initial state, a staged file is of an image type and of
    at most 5 * 1024 * 1024 bytes, and so is every file in the form data of
    a request that [uploadStaged] then sends. *)
Theorem only_validated_files_uploaded (calls : list Call)
    (ans : FetchResult UploadedImage ErrorData) (line : RequestLine)
    (field : string) (file : File) :
  line ∈ requests (notices (uploadStaged ans (session calls initial))) ->
  (field, file) ∈ formData line ->
  selectedFile (session calls initial) = Some file /\ acceptable file.
Proof.
  intros Hline Hfield.
  assert (Hinv : forall f, selectedFile (session calls initial) = Some f ->
                           acceptable f).
  { apply session_keeps_acceptable. intros f Hf. discriminate Hf. }
  revert Hline. unfold uploadStaged.
  destruct (selectedFile (session calls initial)) as [staged | ] eqn:Hsel.
  - intros Hline.
    assert (Hreq : requests (notices (run (handleUpload (Some staged))
                     (upload_answer ans) (session calls initial)))
                   = [request_line (PostUpload staged)]).
    { destruct ans as [e | [[e | result] | [e | errorData]]]; reflexivity. }
    rewrite Hreq in Hline. apply list_elem_of_singleton in Hline.
    subst line. cbn in Hfield. apply list_elem_of_singleton in Hfield.
    injection Hfield as _ ->. split; [reflexivity | ].
    apply Hinv. reflexivity.
  - intros Hline. cbn in Hline. apply elem_of_nil in Hline. destruct Hline.
Qed.

Lemma only_validated_files_uploaded_witness :
  request_line (PostUpload photo)
  ∈ requests (notices (uploadStaged (success dog)
       (session [call_selectFile (choose photo)] initial)))
  /\ acceptable photo.
Proof.
  assert (Hline :
    request_line (PostUpload photo)
    ∈ requests (notices (uploadStaged (success dog)
         (session [call_selectFile (choose photo)] initial)))).
  { apply list_elem_of_singleton. reflexivity. }
  split; [exact Hline | ].
  apply (only_validated_files_uploaded [call_selectFile (choose photo)]
           (success dog) (request_line (PostUpload photo)) "image" photo
           Hline).
  apply list_elem_of_singleton. reflexivity.
Defined.

(* ===================================================================== *)
(** ** Further properties of deleteImage *)
(* ===================================================================== *)

Lemma filter_other_ids_absent (image_id : string) (l : list UploadedImage) :
  (image_id ∉ ids l) -> filter (fun img => id img <> image_id) l = l.
Proof.
  unfold ids. induction l as [ | x l IH]; intros Habsent; [reflexivity | ].
  cbn in Habsent. apply not_elem_of_cons in Habsent as [Hx Hl].
  rewrite filter_cons_True by (intros Heq; apply Hx; symmetry; exact Heq).
  rewrite IH by exact Hl. reflexivity.
Qed.

Lemma filter_other_ids_gone (image_id : string) (l : list UploadedImage) :
  image_id ∉ ids (filter (fun img => id img <> image_id) l).
Proof.
  unfold ids. intros Hin. apply list_elem_of_fmap in Hin as (img & Hid & Hin).
  apply list_elem_of_filter in Hin as [Hne _]. apply Hne. symmetry. exact Hid.
Qed.

(** X14: after a successful deletion no record of the collection has the
    deleted identifier; the collection never grows; and deleting an
    identifier that no record has leaves the collection exactly as it was
    (the success toast is shown all the same). *)
Theorem deleteImage_clears_identifier (st : State) (image_id : string)
    (json : JsonResult unit) :
  let r := deleteImage image_id (fetch_resolves (response_ok json)) st in
  (image_id ∉ ids (images (final r)))
  /\ (length (images (final r)) <= length (images st))%nat
  /\ ((image_id ∉ ids (images st)) ->
      final r = st
      /\ toasts (notices r) = [toasted_success "Image deleted successfully"]).
Proof.
  intros r. subst r. rewrite deleteImage_ok.
  cbn [final images notices]. split; [ | split].
  - apply filter_other_ids_gone.
  - apply length_filter.
  - intros Habsent. rewrite (filter_other_ids_absent _ _ Habsent).
    destruct st; split; reflexivity.
Qed.

Lemma deleteImage_clears_identifier_witness :
  ("z" ∉ ids (images staged_with_cat))
  /\ final (deleteImage "z" (success tt) staged_with_cat) = staged_with_cat.
Proof.
  assert (Habsent : "z" ∉ ids (images staged_with_cat)).
  { intros Hin. apply list_elem_of_singleton in Hin. discriminate Hin. }
  split; [exact Habsent | ].
  apply (deleteImage_clears_identifier staged_with_cat "z" (json_resolves tt)).
  exact Habsent.
Defined.

(** X15: deleting is idempotent and deletions commute: a second successful
    deletion of the same identifier changes nothing, and two successful
    deletions leave the same state in either order. *)
Theorem deleteImage_idempotent_commutes (st : State) (a b : string)
    (ja jb : JsonResult unit) :
  final (deleteImage a (fetch_resolves (response_ok ja))
           (final (deleteImage a (fetch_resolves (response_ok ja)) st)))
  = final (deleteImage a (fetch_resolves (response_ok ja)) st)
  /\ final (deleteImage b (fetch_resolves (response_ok jb))
              (final (deleteImage a (fetch_resolves (response_ok ja)) st)))
     = final (deleteImage a (fetch_resolves (response_ok ja))
                (final (deleteImage b (fetch_resolves (response_ok jb)) st))).
Proof.
  rewrite !deleteImage_ok. cbn [final images isUploading selectedFile fileInput].
  split; f_equal.
  - apply filter_other_ids_absent, filter_other_ids_gone.
  - rewrite !list_filter_filter. apply list_filter_iff.
    intros img. tauto.
Qed.

(** X16: an upload followed by the deletion of the uploaded record gives
    the old collection back, when the backend gave the record a new
    identifier: with a file staged and no record of that identifier in the
    collection, a successful upload and then a successful deletion of the
    identifier of the returned record leave the collection as it was. *)
Theorem upload_then_delete_restores (st : State) (file : File)
    (result : UploadedImage) (json : JsonResult unit) :
  selectedFile st = Some file ->
  (id result ∉ ids (images st)) ->
  images (final (deleteImage (id result) (fetch_resolves (response_ok json))
                   (final (uploadStaged (success result) st))))
  = images st.
Proof.
  intros Hsel Hfresh.
  rewrite (uploadStaged_success st file result Hsel), deleteImage_ok.
  cbn [final images].
  rewrite filter_cons_False by (intros Hne; apply Hne; reflexivity).
  apply filter_other_ids_absent. exact Hfresh.
Qed.

Lemma upload_then_delete_restores_witness :
  selectedFile staged_with_cat = Some photo
  /\ (id dog ∉ ids (images staged_with_cat))
  /\ images (final (deleteImage "y" (success tt)
                      (final (uploadStaged (success dog) staged_with_cat))))
     = images staged_with_cat.
Proof.
  assert (Hfresh : id dog ∉ ids (images staged_with_cat)).
  { intros Hin. apply list_elem_of_singleton in Hin. discriminate Hin. }
  split; [reflexivity | ]. split; [exact Hfresh | ].
  apply (upload_then_delete_restores staged_with_cat photo dog
           (json_resolves tt) eq_refl Hfresh).
Defined.

(* ===================================================================== *)
(** ** The rendered page *)
(* ===================================================================== *)

Lemma shown_cards_render (st : State) :
  shown_cards (render st) = render_card <$> images st.
Proof.
  unfold shown_cards, render. cbn [grid].
  destruct (images st) as [ | img l]; reflexivity.
Qed.

Lemma keys_of_cards (l : list UploadedImage) :
  key <$> (render_card <$> l) = ids l.
Proof.
  unfold ids. induction l as [ | img l IH]; [reflexivity | ].
  cbn. f_equal. exact IH.
Qed.

(** X17: the page shows the results grid or the empty state, never both
    and never neither: the empty state exactly when the collection is
    empty.  The grid has one card per record, in the order of the
    collection, keyed by the identifiers; its heading counts the cards;
    and the Delete button of a card deletes by the key of that card. *)
Theorem render_grid_or_empty (st : State) :
  (emptyState (render st) = true <-> grid (render st) = None)
  /\ (emptyState (render st) = true <-> images st = [])
  /\ key <$> shown_cards (render st) = ids (images st)
  /\ onDelete <$> shown_cards (render st) = key <$> shown_cards (render st)
  /\ (forall g,
         grid (render st) = Some g ->
         heading g = length (cards g)
         /\ length (cards g) = length (images st)
         /\ cards g = shown_cards (render st)).
Proof.
  split; [ | split; [ | split; [ | split]]].
  - unfold render. cbn [emptyState grid].
    destruct (images st) as [ | img l]; cbn; split; intros H;
      try reflexivity; discriminate H.
  - unfold render. cbn [emptyState].
    destruct (images st) as [ | img l]; cbn; split; intros H;
      try reflexivity; discriminate H.
  - rewrite shown_cards_render. apply keys_of_cards.
  - rewrite shown_cards_render.
    induction (images st) as [ | img l IH]; [reflexivity | ].
    cbn. f_equal. exact IH.
  - intros g Hg. unfold shown_cards. rewrite Hg.
    unfold render in Hg. cbn [grid] in Hg.
    destruct (0 <? length (images st))%nat; [ | discriminate Hg].
    injection Hg as <-. cbn [heading cards].
    rewrite length_fmap. repeat split.
Qed.

Lemma render_grid_or_empty_witness :
  grid (render staged_with_cat)
  = Some {| heading := 1; cards := [render_card (with_status_completed cat)] |}
  /\ heading {| heading := 1;
                cards := [render_card (with_status_completed cat)] |}
     = length (cards {| heading := 1;
                        cards := [render_card (with_status_completed cat)] |}).
Proof.
  assert (Hgrid :
    grid (render staged_with_cat)
    = Some {| heading := 1;
              cards := [render_card (with_status_completed cat)] |})
    by reflexivity.
  split; [exact Hgrid | ].
  apply (render_grid_or_empty staged_with_cat). exact Hgrid.
Defined.

(** X18: with a backend that assigns identifiers properly (no identifier
    twice in a listing, a new identifier for every upload), the keys of
    the cards are pairwise distinct after any sequence of calls from the
    initial state: React never sees a duplicate key in the grid. *)
Theorem card_keys_distinct (calls : list Call) :
  fresh_backend calls initial ->
  NoDup (key <$> shown_cards (render (session calls initial))).
Proof.
  intros Hfresh. rewrite shown_cards_render, keys_of_cards.
  apply (session_keeps_order calls initial []).
  - apply NoDup_nil_2.
  - reflexivity.
  - exact Hfresh.
Qed.

Lemma card_keys_distinct_witness :
  fresh_backend sample_session initial
  /\ NoDup (key <$> shown_cards (render (session sample_session initial))).
Proof.
  assert (Hfresh : fresh_backend sample_session initial).
  { cbn. repeat split.
    - apply NoDup_singleton.
    - intros _ Hin. apply list_elem_of_singleton in Hin. discriminate Hin. }
  split; [exact Hfresh | ].
  exact (card_keys_distinct sample_session Hfresh).
Defined.

Lemma filter_other_ids_delete (l : list UploadedImage) :
  forall (i : nat) (img : UploadedImage),
    NoDup (ids l) ->
    l !! i = Some img ->
    filter (fun x => id x <> id img) l = delete i l.
Proof.
  unfold ids. induction l as [ | x l IH]; intros i img Hnodup Hi.
  - destruct i; discriminate Hi.
  - cbn in Hnodup. apply NoDup_cons in Hnodup as [Hx Hl].
    destruct i as [ | i]; cbn in Hi.
    + injection Hi as ->.
      rewrite filter_cons_False by (intros Hne; apply Hne; reflexivity).
      cbn. apply filter_other_ids_absent. exact Hx.
    + assert (Hne : id x <> id img).
      { intros Heq. apply Hx. rewrite Heq.
        apply list_elem_of_fmap_2. eapply list_elem_of_lookup_2. exact Hi. }
      rewrite filter_cons_True by exact Hne.
      cbn. f_equal. apply IH; assumption.
Qed.

(** X19: with pairwise distinct identifiers in the collection, a click on
    the Delete button of the [i]-th card that the backend answers with
    [ok] removes that card and no other: the cards afterwards are the
    cards before without the [i]-th, in the same order.  When the backend
    fails, the cards stay as they are. *)
Theorem click_delete_removes_card (st : State) (i : nat) (card : Card)
    (ans : FetchResult unit unit) :
  NoDup (ids (images st)) ->
  shown_cards (render st) !! i = Some card ->
  shown_cards (render (click_delete i ans st))
  = if failed ans then shown_cards (render st)
    else delete i (shown_cards (render st)).
Proof.
  intros Hnodup Hcard. unfold click_delete. rewrite Hcard.
  rewrite !shown_cards_render in *.
  rewrite list_lookup_fmap in Hcard.
  destruct (images st !! i) as [img | ] eqn:Hi; [ | discriminate Hcard].
  injection Hcard as <-. cbn [onDelete render_card].
  destruct ans as [e | [json | json]]; cbn [failed ok negb].
  - reflexivity.
  - rewrite deleteImage_ok. cbn [final images].
    rewrite (filter_other_ids_delete (images st) i img Hnodup Hi).
    apply list_fmap_delete.
  - reflexivity.
Qed.

Lemma click_delete_removes_card_witness :
  NoDup (ids (images (final (uploadStaged (success dog) staged_with_cat))))
  /\ shown_cards (render (final (uploadStaged (success dog) staged_with_cat)))
       !! 1%nat
     = Some (render_card (with_status_completed cat))
  /\ shown_cards (render (click_delete 1 (success tt)
                            (final (uploadStaged (success dog)
                                      staged_with_cat))))
     = [render_card (with_status_completed dog)].
Proof.
  assert (Hnodup :
    NoDup (ids (images (final (uploadStaged (success dog)
                                 staged_with_cat))))).
  { apply NoDup_cons. split; [ | apply NoDup_singleton].
    intros Hin. apply list_elem_of_singleton in Hin. discriminate Hin. }
  split; [exact Hnodup | ]. split; [reflexivity | ].
  rewrite (click_delete_removes_card _ 1
             (render_card (with_status_completed cat)) (success tt)
             Hnodup eq_refl).
  reflexivity.
Defined.

Lemma Math_round_div_1024_bounds (n : Z) :
  1024 * Math_round_div n 1024 - 512 <= n
  < 1024 * Math_round_div n 1024 + 512.
Proof.
  unfold Math_round_div.
  pose proof (Z.div_mod (2 * n + 1024) (2 * 1024) ltac:(lia)) as Hdiv.
  pose proof (Z.mod_pos_bound (2 * n + 1024) (2 * 1024) ltac:(lia)) as Hmod.
  lia.
Qed.

(** X20: the size on a card.  A record without a size has no size line.
    A record of any other size than zero has the line "Size: k KB" with [k]
    the size in units of 1024 bytes rounded to the nearest integer, so
    within 512 bytes of the size, a half going up; sizes from 1 to 511
    bytes read "Size: 0 KB".  A record whose size is zero has no line but
    the bare number [0] in its place. *)
Theorem card_size_line (image : UploadedImage) :
  (size image = None -> sizeLine (render_card image) = size_nothing)
  /\ (size image = Some 0 ->
      sizeLine (render_card image) = size_bare_number 0)
  /\ (forall n,
         size image = Some n -> n <> 0 ->
         exists kb,
           sizeLine (render_card image) = size_line kb
           /\ 1024 * kb - 512 <= n < 1024 * kb + 512
           /\ (0 < n < 512 -> kb = 0)).
Proof.
  unfold render_card. cbn [sizeLine]. split; [ | split].
  - intros ->. reflexivity.
  - intros ->. reflexivity.
  - intros n -> Hn. exists (Math_round_div n 1024). unfold render_size.
    destruct (Z.eqb_spec n 0) as [Hz | _]; [contradiction | ].
    split; [reflexivity | ].
    pose proof (Math_round_div_1024_bounds n) as Hb.
    split; [exact Hb | ]. intros Hsmall. lia.
Qed.

Lemma card_size_line_witness :
  size empty_upload = Some 0
  /\ sizeLine (render_card empty_upload) = size_bare_number 0
  /\ size nameless = Some 511
  /\ sizeLine (render_card nameless) = size_line 0
  /\ size cat = Some 2048
  /\ sizeLine (render_card cat) = size_line 2.
Proof.
  split; [reflexivity | ].
  split; [apply (card_size_line empty_upload); reflexivity | ].
  split; [reflexivity | ]. split; [ | split; [reflexivity | ]].
  - destruct (card_size_line nameless) as (_ & _ & Hline).
    destruct (Hline 511 eq_refl) as (kb & Heq & _ & Hzero);
      [discriminate | ].
    rewrite Heq, Hzero; [reflexivity | lia].
  - destruct (card_size_line cat) as (_ & _ & Hline).
    destruct (Hline 2048 eq_refl) as (kb & Heq & Hb & _);
      [discriminate | ].
    rewrite Heq. f_equal. lia.
Defined.

(** X21: the names on a card.  The thumbnail is fetched by [fileName]
    whenever that is not empty, whatever [originalName] is; with an empty
    [fileName] and no [originalName] its URL ends in "undefined".  The
    title and the alternative text are [originalName] when the record has
    a non-empty one, and [fileName] otherwise. *)
Theorem card_names (image : UploadedImage) :
  (fileName image <> "" ->
   src (render_card image)
   = "http://localhost:5050/api/upload/" ++ fileName image)
  /\ (fileName image = "" -> originalName image = None ->
      src (render_card image) = "http://localhost:5050/api/upload/undefined")
  /\ (forall s,
         originalName image = Some s -> s <> "" ->
         title (render_card image) = Some s /\ alt (render_card image) = s)
  /\ (originalName image = None \/ originalName image = Some "" ->
      title (render_card image) = Some (fileName image)
      /\ alt (render_card image) = fileName image).
Proof.
  unfold render_card. cbn [src title alt].
  split; [ | split; [ | split]].
  - intros Hname. unfold or_else.
    destruct (String.eqb_spec (fileName image) "");
      [contradiction | reflexivity].
  - intros -> ->. reflexivity.
  - intros s -> Hs. unfold or_else.
    destruct (String.eqb_spec s ""); [contradiction | split; reflexivity].
  - intros [-> | ->]; split; reflexivity.
Qed.

Lemma card_names_witness :
  fileName cat <> ""
  /\ src (render_card cat)
     = "http://localhost:5050/api/upload/1704067200-cat.png"
  /\ title (render_card cat) = Some "cat.png"
  /\ src (render_card nameless) = "http://localhost:5050/api/upload/undefined"
  /\ title (render_card empty_upload) = Some "empty.png".
Proof.
  assert (Hname : fileName cat <> "") by discriminate.
  destruct (card_names cat) as (Hsrc & _ & Htitle & _).
  destruct (card_names nameless) as (_ & Hundefined & _).
  destruct (card_names empty_upload) as (_ & _ & _ & Hfallback).
  split; [exact Hname | ]. split; [exact (Hsrc Hname) | ].
  split; [apply (Htitle "cat.png" eq_refl); discriminate | ].
  split; [exact (Hundefined eq_refl eq_refl) | ].
  apply Hfallback. right; reflexivity.
Defined.

(* ===================================================================== *)
(** ** Handlers one after the other *)
(* ===================================================================== *)

(** X22: selecting and then uploading.  From any state, selecting a file
    that passes the checks and then uploading with success sends that very
    file, puts the card of the returned record first in the grid, before
    the cards that were there, and brings the page back to its prompt
    "Choose an image" without an upload button; in between, the prompt
    names the selected file. *)
Theorem select_then_upload (st : State) (event : ChangeEvent) (file : File)
    (result : UploadedImage) :
  first_file event = Some file ->
  acceptable file ->
  let staged := final (selectFile event st) in
  let r := uploadStaged (success result) staged in
  prompt (render staged) = "Selected: " ++ File.name file
  /\ requests (notices r) = [request_line (PostUpload file)]
  /\ shown_cards (render (final r))
     = render_card (with_status_completed result)
       :: shown_cards (render st)
  /\ prompt (render (final r)) = "Choose an image"
  /\ uploadButton (render (final r)) = None.
Proof.
  intros Hfile Hok staged r. subst staged r.
  rewrite (selectFile_stages_file st event file Hfile Hok). cbn [final].
  rewrite (uploadStaged_success
             {| images := images st; isUploading := isUploading st;
                selectedFile := Some file; fileInput := fileInput st |}
             file result eq_refl).
  rewrite !shown_cards_render. cbn [final images notices].
  repeat split.
Qed.

Lemma select_then_upload_witness :
  first_file (choose largest) = Some largest
  /\ acceptable largest
  /\ requests (notices (uploadStaged (success dog)
                          (final (selectFile (choose largest) initial))))
     = [request_line (PostUpload largest)]
  /\ uploadButton (render (final (uploadStaged (success dog)
                            (final (selectFile (choose largest) initial)))))
     = None.
Proof.
  assert (Hok : acceptable largest) by (split; [reflexivity | discriminate]).
  destruct (select_then_upload initial (choose largest) largest dog
              eq_refl Hok) as (_ & Hrequest & _ & _ & Hbutton).
  split; [reflexivity | ]. split; [exact Hok | ].
  split; [exact Hrequest | exact Hbutton].
Defined.

(** X23: the page after mounting.  When the listing on mount succeeds
    with an array, the grid shows a card per fetched record, keyed by the
    fetched identifiers in the backend's order (the empty state for an
    empty array); when it does not, in whatever way, the state is the
    initial one and the page shows the empty state, as if the gallery
    were empty. *)
Theorem page_after_mount (ans : FetchResult ImagesJson unit) :
  (forall data,
      ans = success (json_array data) ->
      key <$> shown_cards (render (final (mount ans))) = ids data)
  /\ ((forall data, ans <> success (json_array data)) ->
      final (mount ans) = initial
      /\ grid (render (final (mount ans))) = None
      /\ emptyState (render (final (mount ans))) = true).
Proof.
  unfold mount. split.
  - intros data ->. rewrite shown_cards_render, listImages_success_array.
    cbn [final images]. rewrite keys_of_cards. apply ids_tagged.
  - intros Hans.
    destruct ans as [e | [[e | [data | ]] | json]];
      try (repeat split; reflexivity).
    destruct (Hans data). reflexivity.
Qed.

Lemma page_after_mount_witness :
  key <$> shown_cards (render (final (mount (success (json_array [cat; dog])))))
  = ["x"; "y"]
  /\ emptyState (render (final (mount
       (fetch_resolves (response_not_ok (json_resolves tt)))))) = true.
Proof.
  destruct (page_after_mount (success (json_array [cat; dog])))
    as [Hkeys _].
  destruct (page_after_mount
              (fetch_resolves (response_not_ok (json_resolves tt))))
    as [_ Hempty].
  split.
  - exact (Hkeys [cat; dog] eq_refl).
  - apply Hempty. intros data. discriminate.
Defined.

(** X24: what each call leaves alone.  A listing and a deletion never
    touch the staged file; selecting a file never touches the collection;
    and the value of the file input changes in a successful upload only,
    whatever the backend answers to the other calls. *)
Theorem calls_leave_alone (st : State) :
  (forall ans, selectedFile (final (listImages ans st)) = selectedFile st)
  /\ (forall image_id ans,
         selectedFile (final (deleteImage image_id ans st))
         = selectedFile st)
  /\ (forall event, images (final (selectFile event st)) = images st)
  /\ (forall c,
         (forall result, c <> call_uploadStaged (success result)) ->
         fileInput (final (call c st)) = fileInput st).
Proof.
  destruct st as [imgs uploading staged input].
  split; [ | split; [ | split]].
  - intros ans. destruct ans as [e | [[e | [data | ]] | json]]; reflexivity.
  - intros image_id ans. destruct ans as [e | [json | json]]; reflexivity.
  - intros event. unfold selectFile, handleFileSelect.
    destruct (first_file event) as [file | ]; [ | reflexivity].
    destruct (negb (String.prefix "image/" (File.type file)));
      [reflexivity | ].
    destruct (File.size file >? 5 * 1024 * 1024); reflexivity.
  - intros c Hc. destruct c as [ans | event | ans | image_id ans]; cbn [call].
    + destruct ans as [e | [[e | [data | ]] | json]]; reflexivity.
    + unfold selectFile, handleFileSelect.
      destruct (first_file event) as [file | ]; [ | reflexivity].
      destruct (negb (String.prefix "image/" (File.type file)));
        [reflexivity | ].
      destruct (File.size file >? 5 * 1024 * 1024); reflexivity.
    + unfold uploadStaged. cbn [selectedFile].
      destruct staged as [file | ]; [ | reflexivity].
      destruct ans as [e | [[e | result] | [e | errorData]]];
        try reflexivity.
      destruct (Hc result). reflexivity.
    + destruct ans as [e | [json | json]]; reflexivity.
Qed.

Lemma calls_leave_alone_witness :
  fileInput (final (call (call_uploadStaged (fetch_rejects NotAnError))
                      {| images := []; isUploading := false;
                         selectedFile := Some photo;
                         fileInput := Some "cat.png" |}))
  = Some "cat.png".
Proof.
  apply (calls_leave_alone
           {| images := []; isUploading := false;
              selectedFile := Some photo; fileInput := Some "cat.png" |}).
  intros result. discriminate.
Defined.
